(** * MPC.cpp: the model-predictive controller of CarND-MPC-Project-P5

    A shallow embedding of [src/MPC.cpp] and [src/MPC.h]:
    the trajectory-vector offsets, the cost-and-constraint builder
    [FG_eval::operator()], [MPC::Init], [MPC::Solve] and [MPC::Predict].

    Numbers.  The builder runs on [AD<double>] and the rest of the file on
    [double]; both are reached through the same overloaded operators, so
    the embedding is written once over a [Scalar] interface.  Theorems of
    the generic part hold for every instance: they depend on no law of
    arithmetic.  Where a statement needs algebra (a sum reordered, a
    quotient reassociated, [cos 0 = 1]) it is proved at the instance of
    the real numbers, which is the reading of [double] used there.
    Where a statement is about the doubles themselves it is decided at
    the instance of binary64 arithmetic, Rocq's primitive floats.

    Vectors.  [Eigen::VectorXd], [CppAD::vector] and [std::vector] are
    lists.  Indexing out of range is an assertion failure in both
    libraries (and undefined without assertions); it is the outcome
    [OutOfRange] of the result type [res].  A vector allocated with a
    size and no initial value holds [None] in every slot until the slot
    is assigned.

    Integers.  [size_t] and [int] indices are [nat]: with [N = 11] every
    index and every subtraction of the source stays between 0 and 86. *)

From Stdlib Require Import List Arith Lia Bool String QArith.
From Stdlib Require Import Reals Lra Qreals.
From Corelib Require PrimFloat SpecFloat FloatOps.
Import ListNotations.
Close Scope Q_scope.

Set Implicit Arguments.

(** ** Scalars *)

Class Scalar (T : Type) : Type := {
  lit  : Q -> T;          (* a numeric literal of the source *)
  sadd : T -> T -> T;
  ssub : T -> T -> T;
  smul : T -> T -> T;
  sdiv : T -> T -> T;
  sopp : T -> T;
  spow : T -> nat -> T;   (* pow(x, 2), pow(x, 3) *)
  scos : T -> T;
  ssin : T -> T;
  satan : T -> T
}.

Declare Scope scalar_scope.
Delimit Scope scalar_scope with S.
Infix "+" := sadd : scalar_scope.
Infix "-" := ssub : scalar_scope.
Infix "*" := smul : scalar_scope.
Infix "/" := sdiv : scalar_scope.
Notation "- x" := (sopp x) : scalar_scope.
Notation "# q" := (lit q%Q) (at level 1, format "# q") : scalar_scope.

(** ** Results of indexed code *)

Inductive res (A : Type) : Type :=
| Ok (a : A)
| OutOfRange.
Arguments Ok {A} a.
Arguments OutOfRange {A}.

Definition bind {A B : Type} (m : res A) (k : A -> res B) : res B :=
  match m with
  | Ok a => k a
  | OutOfRange => OutOfRange
  end.

Notation "x <- m ;; k" := (bind m (fun x => k))
  (at level 61, m at next level, right associativity).
Notation "' pat <- m ;; k" := (bind m (fun r => match r with pat => k end))
  (at level 61, pat pattern, m at next level, right associativity).

(** [v[i]] as an rvalue. *)
Definition rd {A : Type} (v : list A) (i : nat) : res A :=
  match nth_error v i with
  | Some a => Ok a
  | None => OutOfRange
  end.

Fixpoint upd {A : Type} (v : list A) (i : nat) (a : A) : list A :=
  match v, i with
  | [], _ => []
  | _ :: v', O => a :: v'
  | b :: v', S i' => b :: upd v' i' a
  end.

(** [v[i] = a]. *)
Definition wr {A : Type} (v : list A) (i : nat) (a : A) : res (list A) :=
  if i <? List.length v then Ok (upd v i a) else OutOfRange.

(** [for (int i = lo; i < hi; i++) body], threading the state [s]. *)
Fixpoint iter {St : Type} (n i : nat) (body : nat -> St -> res St) (s : St) : res St :=
  match n with
  | O => Ok s
  | S n' => s' <- body i s ;; iter n' (S i) body s'
  end.

Definition for_loop {St : Type} (lo hi : nat) (body : nat -> St -> res St) (s : St) : res St :=
  iter (hi - lo) lo body s.

(** A vector constructed with a size only: no slot has a value yet. *)
Definition alloc (A : Type) (n : nat) : list (option A) := repeat None n.

(** ** The solver's interface (cppad/ipopt/solve.hpp)

    [CppAD::ipopt::solve_result]: the status codes of the library, and
    the fields of the result that [MPC::Solve] reads. *)

Module ipopt.

Inductive status_type : Type :=
| not_defined
| success
| maxiter_exceeded
| stop_at_tiny_step
| stop_at_acceptable_point
| local_infeasibility
| user_requested_stop
| feasible_point_found
| diverging_iterates
| restoration_failure
| error_in_step_computation
| invalid_number_detected
| too_few_degrees_of_freedom
| internal_error
| unknown.

Definition status_eqb (a b : status_type) : bool :=
  match a, b with
  | not_defined, not_defined | success, success
  | maxiter_exceeded, maxiter_exceeded
  | stop_at_tiny_step, stop_at_tiny_step
  | stop_at_acceptable_point, stop_at_acceptable_point
  | local_infeasibility, local_infeasibility
  | user_requested_stop, user_requested_stop
  | feasible_point_found, feasible_point_found
  | diverging_iterates, diverging_iterates
  | restoration_failure, restoration_failure
  | error_in_step_computation, error_in_step_computation
  | invalid_number_detected, invalid_number_detected
  | too_few_degrees_of_freedom, too_few_degrees_of_freedom
  | internal_error, internal_error | unknown, unknown => true
  | _, _ => false
  end.

Record solve_result (T : Type) : Type := mk_solve_result {
  status : status_type;
  x : list T;
  obj_value : T
}.

End ipopt.

Definition nl : string := String (Ascii.ascii_of_nat 10) EmptyString.

(** ** Trajectory encoding (MPC.cpp, lines 13-23) *)

Definition N : nat := 11.

Definition x_start : nat := 0.
Definition y_start : nat := x_start + N.
Definition psi_start : nat := y_start + N.
Definition v_start : nat := psi_start + N.
Definition cte_start : nat := v_start + N.
Definition epsi_start : nat := cte_start + N.
Definition delta_start : nat := epsi_start + N.
Definition a_start : nat := delta_start + N - 1.

Section Controller.

Context {T : Type} {ST : Scalar T}.
Local Open Scope scalar_scope.

Definition Lf : T := #2.67.
Definition dt : T := #0.1.

(** ** MPC::Predict (lines 242-260) *)

Definition Predict (state actuators : list T) (dt : T) : res (list (option T)) :=
  let next_state := alloc T (List.length state) in
  x <- rd state 0 ;;
  y <- rd state 1 ;;
  psi <- rd state 2 ;;
  v <- rd state 3 ;;
  delta <- rd actuators 0 ;;
  a <- rd actuators 1 ;;
  next_state <- wr next_state 0 (Some (x + (v * scos psi * dt))) ;;
  next_state <- wr next_state 1 (Some (y + (v * ssin psi * dt))) ;;
  next_state <- wr next_state 2 (Some (psi + (v / Lf * delta * dt))) ;;
  next_state <- wr next_state 3 (Some (v + (a * dt))) ;;
  Ok next_state.

(** ** FG_eval (lines 25-107) *)

Record FG_eval : Type := mkFG_eval {
  coeffs : list T;      (* fitted polynomial coefficients *)
  ref_cte : T;
  ref_epsi : T;
  ref_v : T
}.

(** [fg[i] += e]. *)
Definition incr (fg : list T) (i : nat) (e : T) : res (list T) :=
  c <- rd fg i ;; wr fg i (c + e).

(** [FG_eval::operator()(fg, vars)]: [fg] is the solver's output vector,
    passed by reference and returned here; [vars] is read only. *)
Definition FG_eval_call (self : FG_eval) (fg vars : list T) : res (list T) :=
  fg <- wr fg 0 #0 ;;
  (* The part of the cost based on the reference state. *)
  fg <- for_loop 0 N (fun i fg =>
    e <- rd vars (cte_start + i) ;;
    fg <- incr fg 0 (#16 * spow (e - ref_cte self) 2) ;;
    e <- rd vars (epsi_start + i) ;;
    fg <- incr fg 0 (#12 * spow (e - ref_epsi self) 2) ;;
    e <- rd vars (v_start + i) ;;
    incr fg 0 (spow (e - ref_v self) 2)) fg ;;
  (* Minimize the use of actuators. *)
  fg <- for_loop 0 (N - 1) (fun i fg =>
    e <- rd vars (delta_start + i) ;;
    fg <- incr fg 0 (#8 * spow e 2) ;;
    e <- rd vars (a_start + i) ;;
    incr fg 0 (#6 * spow e 2)) fg ;;
  (* Minimize the value gap between sequential actuations. *)
  fg <- for_loop 0 (N - 2) (fun i fg =>
    e1 <- rd vars (delta_start + i + 1) ;;
    e0 <- rd vars (delta_start + i) ;;
    fg <- incr fg 0 (#400 * spow (e1 - e0) 2) ;;
    e1 <- rd vars (a_start + i + 1) ;;
    e0 <- rd vars (a_start + i) ;;
    incr fg 0 (#10 * spow (e1 - e0) 2)) fg ;;
  (* Initial constraints *)
  e <- rd vars x_start ;; fg <- wr fg (1 + x_start) e ;;
  e <- rd vars y_start ;; fg <- wr fg (1 + y_start) e ;;
  e <- rd vars psi_start ;; fg <- wr fg (1 + psi_start) e ;;
  e <- rd vars v_start ;; fg <- wr fg (1 + v_start) e ;;
  e <- rd vars cte_start ;; fg <- wr fg (1 + cte_start) e ;;
  e <- rd vars epsi_start ;; fg <- wr fg (1 + epsi_start) e ;;
  (* The rest of the constraints *)
  for_loop 0 (N - 1) (fun i fg =>
    (* The state at time t+1. *)
    x1 <- rd vars (x_start + i + 1) ;;
    y1 <- rd vars (y_start + i + 1) ;;
    psi1 <- rd vars (psi_start + i + 1) ;;
    v1 <- rd vars (v_start + i + 1) ;;
    cte1 <- rd vars (cte_start + i + 1) ;;
    epsi1 <- rd vars (epsi_start + i + 1) ;;
    (* The state at time t. *)
    x <- rd vars (x_start + i) ;;
    y <- rd vars (y_start + i) ;;
    psi <- rd vars (psi_start + i) ;;
    v <- rd vars (v_start + i) ;;
    cte <- rd vars (cte_start + i) ;;
    epsi <- rd vars (epsi_start + i) ;;
    (* Only consider the actuation at time t. *)
    delta <- rd vars (delta_start + i) ;;
    alpha <- rd vars (a_start + i) ;;
    c0 <- rd (coeffs self) 0 ;;
    c1 <- rd (coeffs self) 1 ;;
    c2 <- rd (coeffs self) 2 ;;
    c3 <- rd (coeffs self) 3 ;;
    let f_x := c0 + c1 * x + c2 * spow x 2 + c3 * spow x 3 in
    let psi_des := satan (c1 + (#2 * c3 * x) + (#3 * c3 * spow x 2)) in
    (* kinematic constraints *)
    fg <- wr fg (2 + x_start + i) (x1 - (x + v * scos psi * dt)) ;;
    fg <- wr fg (2 + y_start + i) (y1 - (y + v * ssin psi * dt)) ;;
    fg <- wr fg (2 + psi_start + i) (psi1 - (psi + v * delta / Lf * dt)) ;;
    fg <- wr fg (2 + v_start + i) (v1 - (v + alpha * dt)) ;;
    fg <- wr fg (2 + cte_start + i) (cte1 - ((f_x - y) + (v * ssin epsi * dt))) ;;
    wr fg (2 + epsi_start + i) (epsi1 - ((psi - psi_des) + v * delta / Lf * dt))) fg.

(** ** MPC (MPC.h; MPC.cpp, lines 109-240) *)

Record MPC : Type := mkMPC {
  N_ : nat;
  dt_ : T;
  ref_cte_ : T;
  ref_epsi_ : T;
  ref_v_ : T
}.

Definition Init (self : MPC) (cte_ref epsi_ref v_ref : T) : MPC :=
  {| N_ := N_ self; dt_ := dt_ self;
     ref_cte_ := cte_ref; ref_epsi_ := epsi_ref; ref_v_ := v_ref |}.

Definition Dvector : Type := list (option T).

(** The arguments of [CppAD::ipopt::solve], in the order of the call. *)
Record nlp : Type := mk_nlp {
  options : string;
  xi : Dvector;     (* vars *)
  xl : Dvector;     (* vars_lowerbound *)
  xu : Dvector;     (* vars_upperbound *)
  gl : Dvector;     (* constraints_lowerbound *)
  gu : Dvector;     (* constraints_upperbound *)
  fg_eval : FG_eval
}.

(** Lines 126-221 of [MPC::Solve]: everything up to the call of the solver. *)
Definition Solve_problem (self : MPC) (state coeffs : list T) : res nlp :=
  x <- rd state 0 ;;
  y <- rd state 1 ;;
  psi <- rd state 2 ;;
  v <- rd state 3 ;;
  cte <- rd state 4 ;;
  epsi <- rd state 5 ;;
  (* Set the number of model variables (includes both states and inputs). *)
  let n_vars := (N * 6 + (N - 1) * 2)%nat in
  (* Set the number of constraints *)
  let n_constraints := (N * 6)%nat in
  (* Initial value of the independent variables. *)
  let vars := alloc T n_vars in
  vars <- for_loop 0 n_vars (fun i vars => wr vars i (Some #0.0)) vars ;;
  (* Set the initial variable values *)
  vars <- wr vars x_start (Some x) ;;
  vars <- wr vars y_start (Some y) ;;
  vars <- wr vars psi_start (Some psi) ;;
  vars <- wr vars v_start (Some v) ;;
  vars <- wr vars cte_start (Some cte) ;;
  vars <- wr vars epsi_start (Some epsi) ;;
  (* Lower and upper limits for x *)
  let vars_lowerbound := alloc T n_vars in
  let vars_upperbound := alloc T n_vars in
  (* Set all non-actuators upper and lowerlimits *)
  '(vars_lowerbound, vars_upperbound) <-
    for_loop 0 delta_start (fun i '(lo, up) =>
      lo <- wr lo i (Some (- #1.0e19)) ;;
      up <- wr up i (Some #1.0e19) ;;
      Ok (lo, up)) (vars_lowerbound, vars_upperbound) ;;
  (* The upper and lower limits of delta *)
  '(vars_lowerbound, vars_upperbound) <-
    for_loop delta_start a_start (fun i '(lo, up) =>
      lo <- wr lo i (Some (- #0.436332)) ;;
      up <- wr up i (Some #0.436332) ;;
      Ok (lo, up)) (vars_lowerbound, vars_upperbound) ;;
  (* Acceleration/decceleration upper and lower limits. *)
  '(vars_lowerbound, vars_upperbound) <-
    for_loop a_start n_vars (fun i '(lo, up) =>
      lo <- wr lo i (Some (- #1.0)) ;;
      up <- wr up i (Some #1.0) ;;
      Ok (lo, up)) (vars_lowerbound, vars_upperbound) ;;
  (* Lower and upper limits for the constraints *)
  let constraints_lowerbound := alloc T n_constraints in
  let constraints_upperbound := alloc T n_constraints in
  '(constraints_lowerbound, constraints_upperbound) <-
    for_loop 0 n_constraints (fun i '(lo, up) =>
      lo <- wr lo i (Some #0) ;;
      up <- wr up i (Some #0) ;;
      Ok (lo, up)) (constraints_lowerbound, constraints_upperbound) ;;
  constraints_lowerbound <- wr constraints_lowerbound x_start (Some x) ;;
  constraints_lowerbound <- wr constraints_lowerbound y_start (Some y) ;;
  constraints_lowerbound <- wr constraints_lowerbound psi_start (Some psi) ;;
  constraints_lowerbound <- wr constraints_lowerbound v_start (Some v) ;;
  constraints_lowerbound <- wr constraints_lowerbound cte_start (Some cte) ;;
  constraints_lowerbound <- wr constraints_lowerbound epsi_start (Some epsi) ;;
  constraints_upperbound <- wr constraints_upperbound x_start (Some x) ;;
  constraints_upperbound <- wr constraints_upperbound y_start (Some y) ;;
  constraints_upperbound <- wr constraints_upperbound psi_start (Some psi) ;;
  constraints_upperbound <- wr constraints_upperbound v_start (Some v) ;;
  constraints_upperbound <- wr constraints_upperbound cte_start (Some cte) ;;
  constraints_upperbound <- wr constraints_upperbound epsi_start (Some epsi) ;;
  (* object that computes objective and constraints *)
  let fg_eval := mkFG_eval coeffs (ref_cte_ self) (ref_epsi_ self) (ref_v_ self) in
  (* options for IPOPT solver *)
  let options := EmptyString in
  let options := (options ++ "Integer print_level  0" ++ nl)%string in
  let options := (options ++ "Sparse  true        forward" ++ nl)%string in
  let options := (options ++ "Sparse  true        reverse" ++ nl)%string in
  let options := (options ++ "Numeric max_cpu_time          0.5" ++ nl)%string in
  Ok (mk_nlp options vars vars_lowerbound vars_upperbound
             constraints_lowerbound constraints_upperbound fg_eval).

(** What [Solve] writes to [std::cout]: the text and the number after it. *)
Definition output : Type := list (string * T).

(** The external solver, [CppAD::ipopt::solve<Dvector, FG_eval>]. *)
Variable solve : nlp -> ipopt.solve_result T.

(** [MPC::Solve]: the returned [vector<double>] and the line printed. *)
Definition Solve (self : MPC) (state coeffs : list T) : res (list T * output) :=
  let ok := true in
  p <- Solve_problem self state coeffs ;;
  (* solve the problem *)
  let solution := solve p in
  (* Check some of the solution values *)
  let ok := ok && ipopt.status_eqb (ipopt.status solution) ipopt.success in
  (* Cost *)
  let cost := ipopt.obj_value solution in
  (* Return the actuator values. *)
  d <- rd (ipopt.x solution) delta_start ;;
  a <- rd (ipopt.x solution) a_start ;;
  Ok ([d; a], [("Cost "%string, cost)]).

End Controller.

(** ** The reading of the Trajectory Vector

    The specification describes the vector as eight consecutive blocks.
    [trajectory] and [encode] follow its words; the theorems relate them
    to the offsets that the code uses. *)

Section Encoding.

Context {T : Type} {ST : Scalar T}.
Local Open Scope scalar_scope.

Record trajectory : Type := mk_trajectory {
  xs : list T;
  ys : list T;
  psis : list T;
  vs : list T;
  ctes : list T;
  epsis : list T;
  deltas : list T;
  accs : list T
}.

(** N values of x, N of y, N of psi, N of v, N of cte, N of epsi, then
    N-1 of delta and N-1 of a. *)
Definition encode (tr : trajectory) : list T :=
  xs tr ++ ys tr ++ psis tr ++ vs tr ++ ctes tr ++ epsis tr ++ deltas tr ++ accs tr.

Definition well_sized (tr : trajectory) : Prop :=
  List.length (xs tr) = N /\ List.length (ys tr) = N /\
  List.length (psis tr) = N /\ List.length (vs tr) = N /\
  List.length (ctes tr) = N /\ List.length (epsis tr) = N /\
  List.length (deltas tr) = (N - 1)%nat /\ List.length (accs tr) = (N - 1)%nat.

(** The trajectory that [Solve] hands to the solver as the initial point:
    the measured state at timestep 0 and zero everywhere else. *)
Definition seeded (x y psi v cte epsi : T) : trajectory :=
  let zeros := repeat #0.0 (N - 1) in
  {| xs := x :: zeros; ys := y :: zeros; psis := psi :: zeros;
     vs := v :: zeros; ctes := cte :: zeros; epsis := epsi :: zeros;
     deltas := zeros; accs := zeros |}.

(** The entry of a vector at an index known to be in range. *)
Definition var (vars : list T) (i : nat) : T := nth i vars #0.

(** The value that the three cost loops of the builder leave in [fg[0]],
    with the additions in the order in which the loops perform them. *)
Definition accumulated_cost (self : FG_eval) (vars : list T) : T :=
  let c := #0 in
  let c := fold_left (fun c i =>
             c + #16 * spow (var vars (cte_start + i) - ref_cte self) 2
               + #12 * spow (var vars (epsi_start + i) - ref_epsi self) 2
               + spow (var vars (v_start + i) - ref_v self) 2) (seq 0 N) c in
  let c := fold_left (fun c i =>
             c + #8 * spow (var vars (delta_start + i)) 2
               + #6 * spow (var vars (a_start + i)) 2) (seq 0 (N - 1)) c in
  fold_left (fun c i =>
    c + #400 * spow (var vars (delta_start + i + 1) - var vars (delta_start + i)) 2
      + #10 * spow (var vars (a_start + i + 1) - var vars (a_start + i)) 2)
    (seq 0 (N - 2)) c.

(** The value the cost loops accumulate, read on the blocks of a
    trajectory instead of the flat vector, the additions in the order of
    the loops. *)
Definition trajectory_cost (self : FG_eval) (tr : trajectory) : T :=
  let c := #0 in
  let c := fold_left (fun c i =>
             c + #16 * spow (var (ctes tr) i - ref_cte self) 2
               + #12 * spow (var (epsis tr) i - ref_epsi self) 2
               + spow (var (vs tr) i - ref_v self) 2) (seq 0 N) c in
  let c := fold_left (fun c i =>
             c + #8 * spow (var (deltas tr) i) 2
               + #6 * spow (var (accs tr) i) 2) (seq 0 (N - 1)) c in
  fold_left (fun c i =>
    c + #400 * spow (var (deltas tr) (i + 1) - var (deltas tr) i) 2
      + #10 * spow (var (accs tr) (i + 1) - var (accs tr) i) 2)
    (seq 0 (N - 2)) c.

(** The option text that [Solve] assembles for the solver. *)
Definition ipopt_options : string :=
  ("Integer print_level  0" ++ nl ++
   "Sparse  true        forward" ++ nl ++
   "Sparse  true        reverse" ++ nl ++
   "Numeric max_cpu_time          0.5" ++ nl)%string.

(** The bounds that [Solve] sets on the variables and on the constraints. *)
Definition lower_bounds : list T :=
  repeat (- #1.0e19) (6 * N) ++ repeat (- #0.436332) (N - 1) ++ repeat (- #1.0) (N - 1).
Definition upper_bounds : list T :=
  repeat #1.0e19 (6 * N) ++ repeat #0.436332 (N - 1) ++ repeat #1.0 (N - 1).
Definition pinned (x y psi v cte epsi : T) : list T :=
  let zeros := repeat #0 (N - 1) in
  (x :: zeros) ++ (y :: zeros) ++ (psi :: zeros) ++
  (v :: zeros) ++ (cte :: zeros) ++ (epsi :: zeros).

(** The sizes with which the solver calls the builder: one entry of [fg]
    for the objective and one per constraint, one entry of [vars] per
    variable; and the four coefficients of a cubic. *)
Definition solver_sized (self : @FG_eval T) (fg vars : list T) : Prop :=
  List.length fg = (1 + 6 * N)%nat /\
  List.length vars = (6 * N + 2 * (N - 1))%nat /\
  4 <= List.length (coeffs self).

(** A solver result with its status replaced. *)
Definition with_status (st : ipopt.status_type) (r : ipopt.solve_result T)
  : ipopt.solve_result T :=
  ipopt.mk_solve_result st (ipopt.x r) (ipopt.obj_value r).

End Encoding.

(** ** The real numbers as scalars *)

#[global] Instance Scalar_R : Scalar R := {|
  lit := Q2R;
  sadd := Rplus;
  ssub := Rminus;
  smul := Rmult;
  sdiv := Rdiv;
  sopp := Ropp;
  spow := pow;
  scos := cos;
  ssin := sin;
  satan := atan
|}.

(** ** Binary64 numbers as scalars

    IEEE 754 double precision, round to nearest even: the arithmetic of
    [double].  A decimal literal is the double nearest to it; every
    literal of the source has a numerator and a denominator that are
    doubles themselves, so that their correctly rounded quotient is that
    nearest double.  [pow], [cos], [sin] and [atan] belong to the C
    library, not to the arithmetic: they are parameters. *)

Definition Z2float (z : Z) : PrimFloat.float :=
  FloatOps.SF2Prim (SpecFloat.binary_normalize 53 1024 z 0 false).

Definition Q2float (q : Q) : PrimFloat.float :=
  PrimFloat.div (Z2float (Qnum q)) (Z2float (Zpos (Qden q))).

Definition Scalar_binary64 (fpow : PrimFloat.float -> nat -> PrimFloat.float)
    (fcos fsin fatan : PrimFloat.float -> PrimFloat.float) : Scalar PrimFloat.float :=
  {| lit := Q2float;
     sadd := PrimFloat.add;
     ssub := PrimFloat.sub;
     smul := PrimFloat.mul;
     sdiv := PrimFloat.div;
     sopp := PrimFloat.opp;
     spow := fpow;
     scos := fcos;
     ssin := fsin;
     satan := fatan |}.

(** A trajectory vector of doubles that is zero except for the speed
    [v] and the steering angle [delta] of timestep 0. *)
Definition vars_b64 (v delta : PrimFloat.float) : list PrimFloat.float :=
  upd (upd (repeat (Q2float 0) (6 * N + 2 * (N - 1))) v_start v) delta_start delta.


Section RealDefinitions.

Local Open Scope R_scope.

(** [f 0 + f 1 + ... + f (n-1)]. *)
Definition sum_below (n : nat) (f : nat -> R) : R :=
  fold_right (fun t acc => f t + acc) 0 (seq 0 n).

(** The objective in the words of the specification (section 4.2), with
    the reference weights. *)
Definition spec_objective (self : @FG_eval R) (vars : list R) : R :=
  let cte t := nth (cte_start + t) vars 0 in
  let epsi t := nth (epsi_start + t) vars 0 in
  let v t := nth (v_start + t) vars 0 in
  let delta t := nth (delta_start + t) vars 0 in
  let a t := nth (a_start + t) vars 0 in
  sum_below N (fun t =>
      16 * (cte t - ref_cte self) ^ 2
    + 12 * (epsi t - ref_epsi self) ^ 2
    + 1 * (v t - ref_v self) ^ 2)
  + sum_below (N - 1) (fun t => 8 * delta t ^ 2 + 6 * a t ^ 2)
  + sum_below (N - 2) (fun t =>
      400 * (delta (t + 1)%nat - delta t) ^ 2
    + 10 * (a (t + 1)%nat - a t) ^ 2).

(** The derivative of the path polynomial [c0 + c1 x + c2 x^2 + c3 x^3]
    and the desired heading of the specification, [atan (f' x)]. *)
Definition path_slope (c0 c1 c2 c3 x : R) : R := c1 + 2 * c2 * x + 3 * c3 * x ^ 2.
Definition spec_psi_des (c0 c1 c2 c3 x : R) : R := atan (path_slope c0 c1 c2 c3 x).

(** Concrete inputs used in the examples. *)
Definition mpc0 : @MPC R := mkMPC N 0.1 0 0 0.
Definition fg0 : list R := repeat 0 (1 + 6 * N).
Definition vars0 : list R := repeat 0 (6 * N + 2 * (N - 1)).
Definition state0 : list R := [0; 0; 0; 0; 0; 0].
Definition coeffs0 : list R := [0; 0; 0; 0].

Definition fge0 : @FG_eval R := mkFG_eval coeffs0 0 0 0.
Definition tr0 : @trajectory R := seeded 0 0 0 0 0 0.

(** The path [f x = x^2], whose slope at [x = 1] is 2, and a trajectory
    vector with [x_0 = 1] and zero everywhere else. *)
Definition coeffs_parabola : list R := [0; 0; 1; 0].
Definition vars_x1 : list R := upd vars0 x_start 1.

(** A measured state with [x = 1]. *)
Definition state1 : list R := [1; 0; 0; 0; 0; 0].

(** The path polynomial of degree three, lowest coefficient first. *)
Definition cubic (cs : list R) (x : R) : R :=
  sum_below 4 (fun i => nth i cs 0 * x ^ i).

(** Driving straight on at constant speed: from [(x0, 0)] along the x
    axis at speed [v], with no steering and no throttle. *)
Definition coasting (x0 v : R) : @trajectory R :=
  {| xs := map (fun t => x0 + v * (INR t * dt)) (seq 0 N);
     ys := repeat 0 N; psis := repeat 0 N; vs := repeat v N;
     ctes := repeat 0 N; epsis := repeat 0 N;
     deltas := repeat 0 (N - 1); accs := repeat 0 (N - 1) |}.

(** Every value lies between its bounds; a missing or unwritten bound
    is not met. *)
Definition within (values : list R) (lower upper : list (option R)) : Prop :=
  List.length lower = List.length values /\
  List.length upper = List.length values /\
  forall j, (j < List.length values)%nat ->
    exists l u c,
      nth_error lower j = Some (Some l) /\ nth_error upper j = Some (Some u) /\
      nth_error values j = Some c /\ l <= c <= u.

(** A solver that stops at its iteration limit, and one that succeeds,
    both leaving the same point and objective value. *)
Definition solver_maxiter (p : @nlp R) : ipopt.solve_result R :=
  ipopt.mk_solve_result ipopt.maxiter_exceeded vars0 0.
Definition solver_success (p : @nlp R) : ipopt.solve_result R :=
  ipopt.mk_solve_result ipopt.success vars0 0.

End RealDefinitions.

(** Splitting a list of known length into its elements. *)
Ltac explode l H :=
  repeat (destruct l as [|? l]; [ solve [ discriminate H ] | ]);
  destruct l; [ | discriminate H ].

(** Case analysis on an index bounded by [H], each case by evaluation. *)
Ltac first_cases t H :=
  repeat (destruct t as [|t];
          [ vm_compute; repeat split; reflexivity
          | try (exfalso; unfold N in H; simpl in H; lia) ]).

(** The same case analysis, each case by conversion. *)
Ltac by_cases t H :=
  repeat (destruct t as [|t];
          [ repeat split; reflexivity
          | try (exfalso; unfold N in H; simpl in H; lia) ]).

(** The operations of the instance, as operations of [R]. *)
Ltac to_reals :=
  cbn [lit sadd ssub smul sdiv sopp spow scos ssin satan Scalar_R] in *.

(** * Properties *)

Section RunLemmas.

Context {T : Type} {ST : Scalar T}.
Local Open Scope scalar_scope.

Lemma at_least_six (state : list T) :
  6 <= List.length state ->
  exists x y psi v cte epsi rest, state = x :: y :: psi :: v :: cte :: epsi :: rest.
Proof.
  intros H.
  do 6 (destruct state as [|? state]; [ simpl in H; lia | ]).
  repeat eexists.
Qed.

(** [Solve] up to the call of the solver, on a state of six components or
    more: the problem handed over. *)
Lemma Solve_problem_run (self : MPC) (x y psi v cte epsi : T) (rest coeffs : list T) :
  Solve_problem self (x :: y :: psi :: v :: cte :: epsi :: rest) coeffs =
  Ok {| options := ipopt_options;
        xi := map Some (encode (seeded x y psi v cte epsi));
        xl := map Some lower_bounds;
        xu := map Some upper_bounds;
        gl := map Some (pinned x y psi v cte epsi);
        gu := map Some (pinned x y psi v cte epsi);
        fg_eval := mkFG_eval coeffs (ref_cte_ self) (ref_epsi_ self) (ref_v_ self) |}.
Proof. vm_compute. reflexivity. Qed.


(** One call of the builder on vectors of the sizes the solver uses. *)
Lemma FG_eval_call_run (self : FG_eval) (fg vars : list T) :
  solver_sized self fg vars ->
  exists fg',
    FG_eval_call self fg vars = Ok fg' /\
    List.length fg' = (1 + 6 * N)%nat /\
    nth_error fg' 0 = Some (accumulated_cost self vars) /\
    (nth_error fg' (1 + x_start) = Some (var vars x_start) /\
     nth_error fg' (1 + y_start) = Some (var vars y_start) /\
     nth_error fg' (1 + psi_start) = Some (var vars psi_start) /\
     nth_error fg' (1 + v_start) = Some (var vars v_start) /\
     nth_error fg' (1 + cte_start) = Some (var vars cte_start) /\
     nth_error fg' (1 + epsi_start) = Some (var vars epsi_start)) /\
    forall t, (t < N - 1)%nat ->
      let x1 := var vars (x_start + t + 1) in
      let y1 := var vars (y_start + t + 1) in
      let psi1 := var vars (psi_start + t + 1) in
      let v1 := var vars (v_start + t + 1) in
      let cte1 := var vars (cte_start + t + 1) in
      let epsi1 := var vars (epsi_start + t + 1) in
      let x := var vars (x_start + t) in
      let y := var vars (y_start + t) in
      let psi := var vars (psi_start + t) in
      let v := var vars (v_start + t) in
      let epsi := var vars (epsi_start + t) in
      let delta := var vars (delta_start + t) in
      let alpha := var vars (a_start + t) in
      let c0 := var (coeffs self) 0 in
      let c1 := var (coeffs self) 1 in
      let c2 := var (coeffs self) 2 in
      let c3 := var (coeffs self) 3 in
      nth_error fg' (2 + x_start + t) = Some (x1 - (x + v * scos psi * dt)) /\
      nth_error fg' (2 + y_start + t) = Some (y1 - (y + v * ssin psi * dt)) /\
      nth_error fg' (2 + psi_start + t) = Some (psi1 - (psi + v * delta / Lf * dt)) /\
      nth_error fg' (2 + v_start + t) = Some (v1 - (v + alpha * dt)) /\
      nth_error fg' (2 + cte_start + t) =
        Some (cte1 - ((c0 + c1 * x + c2 * spow x 2 + c3 * spow x 3 - y)
                      + (v * ssin epsi * dt))) /\
      nth_error fg' (2 + epsi_start + t) =
        Some (epsi1 - ((psi - satan (c1 + (#2 * c3 * x) + (#3 * c3 * spow x 2)))
                       + v * delta / Lf * dt)).
Proof.
  intros (Hfg & Hvars & Hc).
  destruct self as [cs rc re rv]; simpl in Hc.
  do 4 (destruct cs as [|? cs]; [ simpl in Hc; lia | ]).
  explode fg Hfg. explode vars Hvars.
  eexists. split; [ vm_compute; reflexivity | ].
  split; [ reflexivity | ].
  split; [ vm_compute; reflexivity | ].
  split; [ vm_compute; repeat split; reflexivity | ].
  intros step Hstep.
  first_cases step Hstep.
Qed.


(** [Predict] on a state of four components or more. *)
Lemma Predict_run (x y psi v delta a dt : T) (rest more : list T) :
  Predict (x :: y :: psi :: v :: rest) (delta :: a :: more) dt =
  Ok (Some (x + (v * scos psi * dt)) ::
      Some (y + (v * ssin psi * dt)) ::
      Some (psi + (v / Lf * delta * dt)) ::
      Some (v + (a * dt)) :: repeat None (List.length rest)).
Proof. reflexivity. Qed.

Lemma nth_error_repeat_app (A : Type) (a : A) (n : nat) (l : list A) (i : nat) :
  (i < n)%nat -> nth_error (repeat a n ++ l) i = Some a.
Proof.
  revert i; induction n as [|n IH]; intros i Hi; [ lia | ].
  destruct i as [|i]; simpl; [ reflexivity | apply IH; lia ].
Qed.

Lemma nth_error_past_repeat (A : Type) (a : A) (n : nat) (l : list A) (i : nat) :
  nth_error (repeat a n ++ l) (n + i) = nth_error l i.
Proof. induction n as [|n IH]; simpl; [ reflexivity | exact IH ]. Qed.

Lemma nth_error_repeat_end (A : Type) (a : A) (n i : nat) :
  (i < n)%nat -> nth_error (repeat a n) i = Some a.
Proof.
  intros Hi. rewrite <- (app_nil_r (repeat a n)).
  now apply nth_error_repeat_app.
Qed.

(** The outcome of [Solve] does not depend on the status the solver reports. *)
Lemma Solve_status_blind (solve : nlp -> ipopt.solve_result T)
    (st : ipopt.status_type) (self : MPC) (state coeffs : list T) :
  Solve (fun p => with_status st (solve p)) self state coeffs =
  Solve solve self state coeffs.
Proof.
  unfold Solve. destruct (Solve_problem self state coeffs); reflexivity.
Qed.

(** The x, y and v residuals of the builder subtract the very expressions
    that [Predict] evaluates, whatever the arithmetic. *)
Lemma residuals_xyv_are_Predict (self : FG_eval) (fg vars : list T) (t : nat) :
  solver_sized self fg vars ->
  (t < N - 1)%nat ->
  exists fg' x' y' psi' v',
    FG_eval_call self fg vars = Ok fg' /\
    Predict [var vars (x_start + t); var vars (y_start + t);
             var vars (psi_start + t); var vars (v_start + t)]
            [var vars (delta_start + t); var vars (a_start + t)] dt =
      Ok [Some x'; Some y'; Some psi'; Some v'] /\
    nth_error fg' (2 + x_start + t) = Some (var vars (x_start + t + 1) - x') /\
    nth_error fg' (2 + y_start + t) = Some (var vars (y_start + t + 1) - y') /\
    nth_error fg' (2 + v_start + t) = Some (var vars (v_start + t + 1) - v').
Proof.
  intros Hsized Ht.
  destruct (FG_eval_call_run Hsized) as (fg' & Hrun & _ & _ & _ & Hres).
  destruct (Hres t Ht) as (Rx & Ry & _ & Rv & _ & _).
  rewrite Predict_run. exists fg'. do 4 eexists.
  split; [ exact Hrun | ]. split; [ reflexivity | ].
  split; [ exact Rx | ]. split; [ exact Ry | exact Rv ].
Qed.

End RunLemmas.

(** ** Properties that hold for every scalar type *)

Section GenericProperties.

Context {T : Type} {ST : Scalar T}.
Local Open Scope scalar_scope.

(** C7.  The variable bounds that [Solve] passes to the solver: lower
    [-1.0e19] and upper [1.0e19] on each of the [6*N] state slots,
    [-0.436332] and [0.436332] on each of the [N-1] delta slots, [-1.0]
    and [1.0] on each of the [N-1] a slots. *)
Theorem variable_bounds (self : MPC) (state coeffs : list T) :
  6 <= List.length state ->
  exists p,
    Solve_problem self state coeffs = Ok p /\
    List.length (xl p) = (6 * N + 2 * (N - 1))%nat /\
    List.length (xu p) = (6 * N + 2 * (N - 1))%nat /\
    (forall i, (i < 6 * N)%nat ->
       nth_error (xl p) i = Some (Some (- #1.0e19)) /\
       nth_error (xu p) i = Some (Some #1.0e19)) /\
    (forall i, (i < N - 1)%nat ->
       nth_error (xl p) (delta_start + i) = Some (Some (- #0.436332)) /\
       nth_error (xu p) (delta_start + i) = Some (Some #0.436332)) /\
    (forall i, (i < N - 1)%nat ->
       nth_error (xl p) (a_start + i) = Some (Some (- #1.0)) /\
       nth_error (xu p) (a_start + i) = Some (Some #1.0)).
Proof.
  intros H6.
  destruct (at_least_six state H6) as (x & y & psi & v & cte & epsi & rest & ->).
  rewrite Solve_problem_run. eexists. split; [ reflexivity | ].
  cbn [xl xu]. unfold lower_bounds, upper_bounds.
  split; [ reflexivity | ]. split; [ reflexivity | ].
  split; [ | split ]; intros i Hi; rewrite !nth_error_map.
  - rewrite !nth_error_repeat_app by exact Hi. split; reflexivity.
  - change (delta_start + i)%nat with (6 * N + i)%nat.
    rewrite !nth_error_past_repeat.
    rewrite !nth_error_repeat_app by exact Hi. split; reflexivity.
  - change (a_start + i)%nat with (6 * N + ((N - 1) + i))%nat.
    rewrite !nth_error_past_repeat.
    rewrite !nth_error_repeat_end by exact Hi. split; reflexivity.
Qed.

(** C10.  [Predict] sizes its result like the state and assigns the
    components 0 to 3 only: on a state of more than four components every
    component of the result from index 4 on is left unwritten. *)
Theorem Predict_leaves_tail_unwritten (state actuators : list T) (dt : T) :
  4 < List.length state ->
  2 <= List.length actuators ->
  exists next_state,
    Predict state actuators dt = Ok next_state /\
    List.length next_state = List.length state /\
    (forall i, (i < 4)%nat -> exists d, nth_error next_state i = Some (Some d)) /\
    (forall i, (4 <= i < List.length state)%nat -> nth_error next_state i = Some None).
Proof.
  intros Hs Ha.
  do 4 (destruct state as [|? state]; [ simpl in Hs; lia | ]).
  do 2 (destruct actuators as [|? actuators]; [ simpl in Ha; lia | ]).
  rewrite Predict_run. eexists. split; [ reflexivity | ].
  split; [ simpl; now rewrite repeat_length | ].
  split.
  - intros i Hi.
    destruct i as [|[|[|[|i]]]]; [ eexists; reflexivity .. | lia ].
  - intros i [Hlo Hhi].
    do 4 (destruct i as [|i]; [ lia | ]).
    simpl in Hhi |- *. apply nth_error_repeat_end. lia.
Qed.

(** C6.  The Trajectory Vector that [Solve] builds has
    [6*N + 2*(N-1)] entries and is the encoding of eight consecutive
    blocks, [N] values each of x, y, psi, v, cte, epsi, then [N-1] of
    delta and [N-1] of a.  The offsets [x_start] ... [a_start] are where
    the blocks start, and the same blocks are addressed everywhere:
    [Solve] seeds the initial values, the variable bounds and the
    constraint bounds block by block, and the builder reads every state
    and actuation value of the objective, of the timestep-0 entries and
    of all six residuals at every timestep from the block of its kind.
    Each actuation block is one shorter than each state block. *)
Theorem trajectory_vector_layout (self : MPC) (fge : FG_eval)
    (state cfs fg : list T) (tr : trajectory) :
  6 <= List.length state ->
  well_sized tr ->
  List.length fg = (1 + 6 * N)%nat ->
  4 <= List.length (coeffs fge) ->
  (* what Solve builds, block by block *)
  (exists p,
     Solve_problem self state cfs = Ok p /\
     List.length (xi p) = (6 * N + 2 * (N - 1))%nat /\
     xi p = map Some (encode
       {| xs := var state 0 :: repeat #0.0 (N - 1);
          ys := var state 1 :: repeat #0.0 (N - 1);
          psis := var state 2 :: repeat #0.0 (N - 1);
          vs := var state 3 :: repeat #0.0 (N - 1);
          ctes := var state 4 :: repeat #0.0 (N - 1);
          epsis := var state 5 :: repeat #0.0 (N - 1);
          deltas := repeat #0.0 (N - 1);
          accs := repeat #0.0 (N - 1) |}) /\
     xl p = map Some (encode
       {| xs := repeat (- #1.0e19) N; ys := repeat (- #1.0e19) N;
          psis := repeat (- #1.0e19) N; vs := repeat (- #1.0e19) N;
          ctes := repeat (- #1.0e19) N; epsis := repeat (- #1.0e19) N;
          deltas := repeat (- #0.436332) (N - 1);
          accs := repeat (- #1.0) (N - 1) |}) /\
     xu p = map Some (encode
       {| xs := repeat #1.0e19 N; ys := repeat #1.0e19 N;
          psis := repeat #1.0e19 N; vs := repeat #1.0e19 N;
          ctes := repeat #1.0e19 N; epsis := repeat #1.0e19 N;
          deltas := repeat #0.436332 (N - 1);
          accs := repeat #1.0 (N - 1) |}) /\
     gl p = map Some (encode
       {| xs := var state 0 :: repeat #0 (N - 1);
          ys := var state 1 :: repeat #0 (N - 1);
          psis := var state 2 :: repeat #0 (N - 1);
          vs := var state 3 :: repeat #0 (N - 1);
          ctes := var state 4 :: repeat #0 (N - 1);
          epsis := var state 5 :: repeat #0 (N - 1);
          deltas := []; accs := [] |}) /\
     gu p = gl p /\
     (* the blocks of the vector, by the offsets *)
     (y_start - x_start = N /\ psi_start - y_start = N /\
      v_start - psi_start = N /\ cte_start - v_start = N /\
      epsi_start - cte_start = N /\ delta_start - epsi_start = N /\
      a_start - delta_start = N - 1 /\
      List.length (xi p) - a_start = N - 1 /\
      S (a_start - delta_start) = y_start - x_start /\
      S (List.length (xi p) - a_start) = y_start - x_start)%nat) /\
  (* the offsets are where the blocks of an encoding start *)
  List.length (encode tr) = (6 * N + 2 * (N - 1))%nat /\
  (forall t, (t < N)%nat ->
     nth_error (encode tr) (x_start + t) = nth_error (xs tr) t /\
     nth_error (encode tr) (y_start + t) = nth_error (ys tr) t /\
     nth_error (encode tr) (psi_start + t) = nth_error (psis tr) t /\
     nth_error (encode tr) (v_start + t) = nth_error (vs tr) t /\
     nth_error (encode tr) (cte_start + t) = nth_error (ctes tr) t /\
     nth_error (encode tr) (epsi_start + t) = nth_error (epsis tr) t) /\
  (forall t, (t < N - 1)%nat ->
     nth_error (encode tr) (delta_start + t) = nth_error (deltas tr) t /\
     nth_error (encode tr) (a_start + t) = nth_error (accs tr) t) /\
  (* every value the builder uses comes from the block of its kind *)
  (exists fg',
     FG_eval_call fge fg (encode tr) = Ok fg' /\
     nth_error fg' 0 = Some (trajectory_cost fge tr) /\
     nth_error fg' (1 + x_start) = nth_error (xs tr) 0 /\
     nth_error fg' (1 + y_start) = nth_error (ys tr) 0 /\
     nth_error fg' (1 + psi_start) = nth_error (psis tr) 0 /\
     nth_error fg' (1 + v_start) = nth_error (vs tr) 0 /\
     nth_error fg' (1 + cte_start) = nth_error (ctes tr) 0 /\
     nth_error fg' (1 + epsi_start) = nth_error (epsis tr) 0 /\
     forall t, (t < N - 1)%nat ->
       let x := var (xs tr) t in
       let y := var (ys tr) t in
       let psi := var (psis tr) t in
       let v := var (vs tr) t in
       let epsi := var (epsis tr) t in
       let delta := var (deltas tr) t in
       let alpha := var (accs tr) t in
       let c0 := var (coeffs fge) 0 in
       let c1 := var (coeffs fge) 1 in
       let c2 := var (coeffs fge) 2 in
       let c3 := var (coeffs fge) 3 in
       nth_error fg' (2 + x_start + t) =
         Some (var (xs tr) (t + 1) - (x + v * scos psi * dt)) /\
       nth_error fg' (2 + y_start + t) =
         Some (var (ys tr) (t + 1) - (y + v * ssin psi * dt)) /\
       nth_error fg' (2 + psi_start + t) =
         Some (var (psis tr) (t + 1) - (psi + v * delta / Lf * dt)) /\
       nth_error fg' (2 + v_start + t) =
         Some (var (vs tr) (t + 1) - (v + alpha * dt)) /\
       nth_error fg' (2 + cte_start + t) =
         Some (var (ctes tr) (t + 1)
               - ((c0 + c1 * x + c2 * spow x 2 + c3 * spow x 3 - y)
                  + (v * ssin epsi * dt))) /\
       nth_error fg' (2 + epsi_start + t) =
         Some (var (epsis tr) (t + 1)
               - ((psi - satan (c1 + (#2 * c3 * x) + (#3 * c3 * spow x 2)))
                  + v * delta / Lf * dt))).
Proof.
  intros H6 Hsz Hfg Hc.
  destruct tr as [X Y PSI V CTE EPSI DELTA A].
  destruct Hsz as (HX & HY & HPSI & HV & HCTE & HEPSI & HDELTA & HA).
  cbn [xs ys psis vs ctes epsis deltas accs] in *.
  split.
  { destruct (at_least_six state H6) as (x & y & psi & v & cte & epsi & rest & ->).
    rewrite Solve_problem_run. eexists.
    split; [ reflexivity | ]. cbn [xi xl xu gl gu].
    split; [ reflexivity | ].
    split; [ reflexivity | ].
    split; [ vm_compute; reflexivity | ].
    split; [ vm_compute; reflexivity | ].
    split; [ vm_compute; reflexivity | ].
    split; [ reflexivity | repeat split ]. }
  split; [ unfold encode; cbn [xs ys psis vs ctes epsis deltas accs];
           rewrite !length_app, HX, HY, HPSI, HV, HCTE, HEPSI, HDELTA, HA;
           reflexivity | ].
  split; [ | split ].
  - explode X HX. explode Y HY. explode PSI HPSI. explode V HV.
    explode CTE HCTE. explode EPSI HEPSI.
    intros step Hstep. first_cases step Hstep.
  - explode X HX. explode Y HY. explode PSI HPSI. explode V HV.
    explode CTE HCTE. explode EPSI HEPSI. explode DELTA HDELTA.
    intros step Hstep. first_cases step Hstep.
  - explode X HX. explode Y HY. explode PSI HPSI. explode V HV.
    explode CTE HCTE. explode EPSI HEPSI. explode DELTA HDELTA. explode A HA.
    match goal with |- context [FG_eval_call fge fg ?vars] =>
      destruct (FG_eval_call_run (self:=fge) (fg:=fg) (vars:=vars))
        as (fg' & Hrun & _ & Hcost & (I1 & I2 & I3 & I4 & I5 & I6) & Hres);
        [ repeat split; assumption | ]
    end.
    exists fg'. split; [ exact Hrun | ].
    split; [ rewrite Hcost; vm_compute; reflexivity | ].
    do 6 (split; [ assumption | ]).
    intros step Hstep.
    destruct (Hres step Hstep) as (Rx & Ry & Rpsi & Rv & Rcte & Repsi).
    cbv zeta in Rx, Ry, Rpsi, Rv, Rcte, Repsi. cbv zeta.
    rewrite Rx, Ry, Rpsi, Rv, Rcte, Repsi. clear - Hstep.
    first_cases step Hstep.
Qed.

(** C8, as the code has it.  The timestep-0 entry of the Constraint
    Vector is, for each of the six state dimensions, the trajectory
    variable itself; the measured state enters through the constraint
    bounds of [Solve], which are zero everywhere except at the six
    timestep-0 slots, where lower and upper bound both are the component
    of the supplied state. *)
Theorem initial_state_pinned_by_bounds (self : MPC) (fge : FG_eval)
    (state cfs fg vars : list T) :
  6 <= List.length state ->
  solver_sized fge fg vars ->
  exists p fg',
    Solve_problem self state cfs = Ok p /\
    FG_eval_call fge fg vars = Ok fg' /\
    List.length fg' = (1 + 6 * N)%nat /\
    (nth_error fg' (1 + x_start) = nth_error vars x_start /\
     nth_error fg' (1 + y_start) = nth_error vars y_start /\
     nth_error fg' (1 + psi_start) = nth_error vars psi_start /\
     nth_error fg' (1 + v_start) = nth_error vars v_start /\
     nth_error fg' (1 + cte_start) = nth_error vars cte_start /\
     nth_error fg' (1 + epsi_start) = nth_error vars epsi_start) /\
    List.length (gl p) = (6 * N)%nat /\
    gu p = gl p /\
    (nth_error (gl p) x_start = Some (Some (var state 0)) /\
     nth_error (gl p) y_start = Some (Some (var state 1)) /\
     nth_error (gl p) psi_start = Some (Some (var state 2)) /\
     nth_error (gl p) v_start = Some (Some (var state 3)) /\
     nth_error (gl p) cte_start = Some (Some (var state 4)) /\
     nth_error (gl p) epsi_start = Some (Some (var state 5))) /\
    (forall t, (1 <= t < N)%nat ->
       nth_error (gl p) (x_start + t) = Some (Some #0) /\
       nth_error (gl p) (y_start + t) = Some (Some #0) /\
       nth_error (gl p) (psi_start + t) = Some (Some #0) /\
       nth_error (gl p) (v_start + t) = Some (Some #0) /\
       nth_error (gl p) (cte_start + t) = Some (Some #0) /\
       nth_error (gl p) (epsi_start + t) = Some (Some #0)).
Proof.
  intros H6 Hsized.
  destruct (at_least_six state H6) as (x & y & psi & v & cte & epsi & rest & ->).
  destruct (FG_eval_call_run Hsized)
    as (fg' & Hrun & Hlen & _ & (I1 & I2 & I3 & I4 & I5 & I6) & _).
  destruct Hsized as (_ & Hvars & _).
  rewrite Solve_problem_run. eexists; exists fg'.
  split; [ reflexivity | ]. split; [ exact Hrun | ]. split; [ exact Hlen | ].
  split.
  { unfold var in I1, I2, I3, I4, I5, I6.
    rewrite I1, I2, I3, I4, I5, I6.
    repeat split; symmetry; apply nth_error_nth'; rewrite Hvars;
      vm_compute; lia. }
  cbn [gl gu].
  split; [ reflexivity | ]. split; [ reflexivity | ].
  split; [ repeat split | ].
  intros step [Hlo Hhi]. destruct step as [|step]; [ lia | ].
  first_cases step Hhi.
Qed.


End GenericProperties.

(** ** Properties at the real numbers *)

Section RealProperties.

Local Open Scope R_scope.

(** The value of a literal. *)
Lemma lit_value (n : Z) (d : positive) : Q2R (Qmake n d) = IZR n / IZR (Zpos d).
Proof. reflexivity. Qed.

Lemma var_real (vars : list R) (i : nat) : var vars i = nth i vars 0.
Proof.
  unfold var. to_reals. replace (Q2R 0) with 0; [ reflexivity | ].
  rewrite lit_value. lra.
Qed.

Lemma Lf_value : @Lf R _ = 2.67.
Proof. unfold Lf. to_reals. rewrite lit_value. lra. Qed.

Lemma dt_value : @dt R _ = 0.1.
Proof. unfold dt. to_reals. rewrite lit_value. lra. Qed.

(** A loop that adds [g i] to an accumulator leaves the accumulator plus
    the sum of the [g i]. *)
Lemma fold_left_adds (F : R -> nat -> R) (g : nat -> R) (l : list nat) (c : R) :
  (forall c i, F c i = c + g i) ->
  fold_left F l c = c + fold_right (fun t acc => g t + acc) 0 l.
Proof.
  intros HF. revert c.
  induction l as [|i l IH]; intros c; simpl.
  - lra.
  - rewrite IH, HF. lra.
Qed.

Lemma accumulated_cost_is_spec_objective (self : @FG_eval R) (vars : list R) :
  accumulated_cost self vars = spec_objective self vars.
Proof.
  unfold accumulated_cost, spec_objective, sum_below. cbv zeta.
  rewrite (fold_left_adds _
    (fun t => 400 * (nth (delta_start + (t + 1)) vars 0
                     - nth (delta_start + t) vars 0) ^ 2
            + 10 * (nth (a_start + (t + 1)) vars 0
                    - nth (a_start + t) vars 0) ^ 2)).
  2:{ intros c i. rewrite !var_real, <- !Nat.add_assoc.
      to_reals. rewrite !lit_value. field. }
  rewrite (fold_left_adds _
    (fun t => 8 * nth (delta_start + t) vars 0 ^ 2
            + 6 * nth (a_start + t) vars 0 ^ 2)).
  2:{ intros c i. rewrite !var_real. to_reals. rewrite !lit_value. field. }
  rewrite (fold_left_adds _
    (fun t => 16 * (nth (cte_start + t) vars 0 - ref_cte self) ^ 2
            + 12 * (nth (epsi_start + t) vars 0 - ref_epsi self) ^ 2
            + 1 * (nth (v_start + t) vars 0 - ref_v self) ^ 2)).
  2:{ intros c i. rewrite !var_real. to_reals. rewrite !lit_value. field. }
  to_reals. rewrite lit_value. lra.
Qed.

(** C9.  The objective that the builder writes to [fg[0]] is the sum of
    the specification: over all [N] timesteps of
    [16 (cte_t - cte_ref)^2 + 12 (epsi_t - epsi_ref)^2 + 1 (v_t - v_ref)^2],
    over the first [N-1] timesteps of [8 delta_t^2 + 6 a_t^2], and over
    the timesteps 0 to [N-3] of
    [400 (delta_{t+1} - delta_t)^2 + 10 (a_{t+1} - a_t)^2]. *)
Theorem objective_is_weighted_sum (self : @FG_eval R) (fg vars : list R) :
  solver_sized self fg vars ->
  exists fg',
    FG_eval_call self fg vars = Ok fg' /\
    nth_error fg' 0 = Some (spec_objective self vars).
Proof.
  intros Hsized.
  destruct (FG_eval_call_run Hsized) as (fg' & Hrun & _ & Hcost & _).
  exists fg'. split; [ exact Hrun | ].
  rewrite Hcost. f_equal. apply accumulated_cost_is_spec_objective.
Qed.

(** C5, as the code has it.  At every timestep the x, y and v residuals
    of the builder are the next-timestep variable minus the very
    expression that [Predict] evaluates for the current state and
    actuation over the configured [dt], whatever the arithmetic.  The
    psi residual subtracts [psi + v * delta / Lf * dt] where [Predict]
    returns [psi + v / Lf * delta * dt]: the same sign and the same
    [Lf], the product taken in another order.  Over the real numbers
    the two are equal, and all four residuals are the next-timestep
    variable minus the component that [Predict] returns. *)
Theorem residuals_agree_with_Predict :
  (forall (T : Type) (ST : Scalar T) (self : @FG_eval T) (fg vars : list T) (t : nat),
     solver_sized self fg vars ->
     (t < N - 1)%nat ->
     exists fg' x' y' psi' v',
       FG_eval_call self fg vars = Ok fg' /\
       Predict [var vars (x_start + t); var vars (y_start + t);
                var vars (psi_start + t); var vars (v_start + t)]
               [var vars (delta_start + t); var vars (a_start + t)] (@dt T ST) =
         Ok [Some x'; Some y'; Some psi'; Some v'] /\
       nth_error fg' (2 + x_start + t) = Some (ssub (var vars (x_start + t + 1)) x') /\
       nth_error fg' (2 + y_start + t) = Some (ssub (var vars (y_start + t + 1)) y') /\
       nth_error fg' (2 + v_start + t) = Some (ssub (var vars (v_start + t + 1)) v') /\
       nth_error fg' (2 + psi_start + t) =
         Some (ssub (var vars (psi_start + t + 1))
                 (sadd (var vars (psi_start + t))
                    (smul (sdiv (smul (var vars (v_start + t))
                                      (var vars (delta_start + t))) (@Lf T ST))
                          (@dt T ST)))) /\
       psi' = sadd (var vars (psi_start + t))
                (smul (smul (sdiv (var vars (v_start + t)) (@Lf T ST))
                            (var vars (delta_start + t)))
                      (@dt T ST))) /\
  (forall (self : @FG_eval R) (fg vars : list R) (t : nat),
     solver_sized self fg vars ->
     (t < N - 1)%nat ->
     let x := nth (x_start + t) vars 0 in
     let y := nth (y_start + t) vars 0 in
     let psi := nth (psi_start + t) vars 0 in
     let v := nth (v_start + t) vars 0 in
     let delta := nth (delta_start + t) vars 0 in
     let a := nth (a_start + t) vars 0 in
     exists fg' x' y' psi' v',
       FG_eval_call self fg vars = Ok fg' /\
       Predict [x; y; psi; v] [delta; a] dt = Ok [Some x'; Some y'; Some psi'; Some v'] /\
       nth_error fg' (2 + x_start + t) = Some (nth (x_start + t + 1) vars 0 - x') /\
       nth_error fg' (2 + y_start + t) = Some (nth (y_start + t + 1) vars 0 - y') /\
       nth_error fg' (2 + psi_start + t) = Some (nth (psi_start + t + 1) vars 0 - psi') /\
       nth_error fg' (2 + v_start + t) = Some (nth (v_start + t + 1) vars 0 - v')).
Proof.
  split.
  - intros T ST self fg vars t Hsized Ht.
    destruct (FG_eval_call_run Hsized) as (fg' & Hrun & _ & _ & _ & Hres).
    destruct (Hres t Ht) as (Rx & Ry & Rpsi & Rv & _ & _). clear Hres.
    rewrite Predict_run. exists fg'. do 4 eexists.
    split; [ exact Hrun | ]. split; [ reflexivity | ].
    split; [ exact Rx | ]. split; [ exact Ry | ]. split; [ exact Rv | ].
    split; [ exact Rpsi | reflexivity ].
  - intros self fg vars t Hsized Ht x y psi v delta a.
    destruct (FG_eval_call_run Hsized) as (fg' & Hrun & _ & _ & _ & Hres).
    destruct (Hres t Ht) as (Rx & Ry & Rpsi & Rv & _ & _). clear Hres.
    cbv zeta in Rx, Ry, Rpsi, Rv.
    repeat rewrite var_real in Rx. repeat rewrite var_real in Ry.
    repeat rewrite var_real in Rpsi. repeat rewrite var_real in Rv.
    subst x y psi v delta a.
    rewrite Predict_run. exists fg'. do 4 eexists.
    split; [ exact Hrun | ]. split; [ reflexivity | ].
    rewrite Rx, Ry, Rpsi, Rv. to_reals.
    repeat split. f_equal.
    rewrite Lf_value. field. lra.
Qed.

(** C5 fails on the code: in binary64, at speed 1 and steering angle
    0.436332 (every other variable zero), the psi residual of the builder
    is not the next psi minus the psi that [Predict] returns, whatever
    the library functions are: [1 * 0.436332 / 2.67 * 0.1] and
    [1 / 2.67 * 0.436332 * 0.1] round to different doubles. *)
Lemma psi_prediction_differs_in_binary64 :
  exists v delta : PrimFloat.float,
    v = Q2float 1 /\ delta = Q2float 0.436332 /\
    forall fpow fcos fsin fatan,
      let ST := Scalar_binary64 fpow fcos fsin fatan in
      exists fg' x' y' psi' v',
        FG_eval_call (ST := ST) (mkFG_eval (repeat (Q2float 0) 4)
                                   (Q2float 0) (Q2float 0) (Q2float 0))
          (repeat (Q2float 0) (1 + 6 * N)) (vars_b64 v delta) = Ok fg' /\
        Predict (ST := ST) [Q2float 0; Q2float 0; Q2float 0; v] [delta; Q2float 0]
          (@dt _ ST) = Ok [Some x'; Some y'; Some psi'; Some v'] /\
        nth_error fg' (2 + psi_start + 0) <>
          Some (PrimFloat.sub (Q2float 0) psi').
Proof.
  exists (Q2float 1), (Q2float 0.436332).
  split; [ reflexivity | ]. split; [ reflexivity | ].
  intros fpow fcos fsin fatan ST. subst ST.
  do 5 eexists.
  split; [ vm_compute; reflexivity | ].
  split; [ vm_compute; reflexivity | ].
  vm_compute. intros H.
  match type of H with
  | Some ?a = Some ?b =>
      assert (E := f_equal (fun o => match o with
                                     | Some z => PrimFloat.eqb z b
                                     | None => false
                                     end) H)
  end.
  vm_compute in E. discriminate E.
Qed.

(** C4.  [Predict] returns
    [(x + v cos(psi) dt, y + v sin(psi) dt, psi + (v/Lf) delta dt, v + a dt)]
    with [Lf = 2.67]; with zero actuation heading and speed are unchanged;
    and a car at the origin heading along x at speed 10 is at [x = 1]
    after [dt = 0.1]. *)
Theorem Predict_is_kinematic_model :
  (forall x y psi v delta a dt : R,
     Predict [x; y; psi; v] [delta; a] dt =
     Ok [Some (x + v * cos psi * dt); Some (y + v * sin psi * dt);
         Some (psi + v / Lf * delta * dt); Some (v + a * dt)]) /\
  @Lf R _ = 2.67 /\
  (forall x y psi v dt : R,
     Predict [x; y; psi; v] [0; 0] dt =
     Ok [Some (x + v * cos psi * dt); Some (y + v * sin psi * dt);
         Some psi; Some v]) /\
  Predict [0; 0; 0; 10] [0; 0] 0.1 = Ok [Some 1; Some 0; Some 0; Some 10].
Proof.
  split; [ | split; [ exact Lf_value | split ] ].
  - intros. rewrite Predict_run. reflexivity.
  - intros x y psi v dt0. rewrite Predict_run. to_reals. simpl repeat.
    rewrite Lf_value.
    replace (psi + v / 2.67 * 0 * dt0) with psi by (field; lra).
    replace (v + 0 * dt0) with v by ring.
    reflexivity.
  - rewrite Predict_run. to_reals. simpl repeat.
    rewrite cos_0, sin_0, Lf_value.
    replace (0 + 10 * 1 * 0.1) with 1 by lra.
    replace (0 + 10 * 0 * 0.1) with 0 by lra.
    replace (0 + 10 / 2.67 * 0 * 0.1) with 0 by (field; lra).
    replace (10 + 0 * 0.1) with 10 by lra.
    reflexivity.
Qed.

(** C1 fails on the code.  Line 96 takes the linear term of the slope
    from [coeffs[3]]: the desired heading in the heading-error residual is
    [atan (c1 + 2 c3 x + 3 c3 x^2)].  On the path [f x = x^2] at
    [x_0 = 1] the builder uses the heading [atan 0 = 0] and writes the
    residual 0, where the slope of the path is 2 and the heading of the
    specification is [atan 2]. *)
Theorem desired_heading_skips_quadratic_coefficient :
  exists fg',
    FG_eval_call (mkFG_eval coeffs_parabola 0 0 0) fg0 vars_x1 = Ok fg' /\
    nth_error vars_x1 x_start = Some 1 /\
    nth_error fg' (2 + epsi_start + 0) =
      Some (0 - ((0 - atan (0 + 2 * 0 * 1 + 3 * 0 * 1 ^ 2)) + 0 * 0 / Lf * dt)) /\
    nth_error fg' (2 + epsi_start + 0) = Some 0 /\
    spec_psi_des 0 0 1 0 1 = atan 2 /\
    atan (0 + 2 * 0 * 1 + 3 * 0 * 1 ^ 2) <> spec_psi_des 0 0 1 0 1.
Proof.
  assert (Hsized : solver_sized (mkFG_eval coeffs_parabola 0 0 0) fg0 vars_x1).
  { split; [ reflexivity | split; [ reflexivity | simpl; lia ] ]. }
  destruct (FG_eval_call_run Hsized) as (fg' & Hrun & _ & _ & _ & Hres).
  assert (H0 : (0 < N - 1)%nat) by (unfold N; simpl; lia).
  destruct (Hres 0%nat H0) as (_ & _ & _ & _ & _ & Repsi). clear Hres.
  cbv zeta in Repsi.
  assert (E : nth_error fg' (2 + epsi_start + 0) =
              Some (0 - ((0 - atan (0 + Q2R 2 * 0 * 1 + Q2R 3 * 0 * 1 ^ 2))
                         + 0 * 0 / Lf * dt))) by exact Repsi.
  rewrite !lit_value in E.
  replace (0 + 2 / 1 * 0 * 1 + 3 / 1 * 0 * 1 ^ 2)
    with (0 + 2 * 0 * 1 + 3 * 0 * 1 ^ 2) in E by field.
  assert (Z : 0 + 2 * 0 * 1 + 3 * 0 * 1 ^ 2 = 0) by ring.
  assert (S2 : spec_psi_des 0 0 1 0 1 = atan 2).
  { unfold spec_psi_des, path_slope. f_equal. ring. }
  exists fg'. split; [ exact Hrun | ]. split; [ reflexivity | ].
  split; [ exact E | ]. split; [ | split; [ exact S2 | ] ].
  - rewrite E, Z, atan_0, Lf_value. f_equal. field. lra.
  - rewrite S2, Z, atan_0. intros H.
    assert (L : atan 0 < atan 2) by (apply atan_increasing; lra).
    rewrite atan_0 in L. lra.
Qed.

(** C2 fails on the code.  [Solve] computes [ok] from the solver's status
    and never reads it: after a solve that stopped at the iteration
    limit it returns the first actuation of the solver's point, exactly
    as after a successful solve; no status changes what it returns. *)
Theorem Solve_returns_actuation_of_failed_solve :
  (forall p, ipopt.status (solver_maxiter p) = ipopt.maxiter_exceeded) /\
  Solve solver_maxiter mpc0 state0 coeffs0 = Ok ([0; 0], [("Cost "%string, 0)]) /\
  Solve solver_maxiter mpc0 state0 coeffs0 = Solve solver_success mpc0 state0 coeffs0 /\
  (forall (solve : @nlp R -> ipopt.solve_result R) st self state cfs,
     Solve (fun p => with_status st (solve p)) self state cfs =
     Solve solve self state cfs).
Proof.
  split; [ reflexivity | ].
  split; [ | split; [ | intros; apply Solve_status_blind ] ];
    unfold Solve, state0; rewrite Solve_problem_run; reflexivity.
Qed.


(** C8 fails on the code: on the trajectory that [Solve] seeds from a
    state with [x = 1], the variable [x_0] is 1 and the timestep-0
    residual of x is 1, not the variable minus the state's [x]. *)
Lemma initial_residual_is_not_a_difference :
  exists fg',
    FG_eval_call fge0 fg0 (encode (seeded 1 0 0 0 0 0)) = Ok fg' /\
    nth_error (encode (seeded 1 0 0 0 0 0)) x_start = Some 1 /\
    nth_error state1 0 = Some 1 /\
    nth_error fg' (1 + x_start) = Some 1 /\
    nth_error fg' (1 + x_start) <> Some (1 - 1).
Proof.
  assert (Hsized : solver_sized fge0 fg0 (encode (seeded 1 0 0 0 0 0))).
  { split; [ reflexivity | split; [ reflexivity | simpl; lia ] ]. }
  destruct (FG_eval_call_run Hsized) as (fg' & Hrun & _ & _ & (I1 & _) & _).
  exists fg'. split; [ exact Hrun | ].
  split; [ reflexivity | ]. split; [ reflexivity | ].
  assert (E : nth_error fg' (1 + x_start) = Some 1) by exact I1.
  split; [ exact E | ].
  rewrite E. intros H. injection H as H. lra.
Qed.

(** ** The theorems at concrete inputs *)

(** C9, at the zero trajectory. *)
Lemma objective_is_weighted_sum_witness :
  solver_sized fge0 fg0 vars0 /\
  exists fg',
    FG_eval_call fge0 fg0 vars0 = Ok fg' /\
    nth_error fg' 0 = Some (spec_objective fge0 vars0).
Proof.
  assert (H1 : solver_sized fge0 fg0 vars0)
    by (split; [ reflexivity | split; [ reflexivity | simpl; lia ] ]).
  split; [ exact H1 | ].
  apply objective_is_weighted_sum; assumption.
Defined.

(** C5, at the first timestep of the zero trajectory. *)
Lemma residuals_agree_with_Predict_witness :
  solver_sized fge0 fg0 vars0 /\
  (0 < N - 1)%nat /\
  exists fg' x' y' psi' v',
    FG_eval_call fge0 fg0 vars0 = Ok fg' /\
    Predict [nth (x_start + 0) vars0 0; nth (y_start + 0) vars0 0;
             nth (psi_start + 0) vars0 0; nth (v_start + 0) vars0 0]
            [nth (delta_start + 0) vars0 0; nth (a_start + 0) vars0 0] dt =
      Ok [Some x'; Some y'; Some psi'; Some v'] /\
    nth_error fg' (2 + x_start + 0) = Some (nth (x_start + 0 + 1) vars0 0 - x') /\
    nth_error fg' (2 + y_start + 0) = Some (nth (y_start + 0 + 1) vars0 0 - y') /\
    nth_error fg' (2 + psi_start + 0) = Some (nth (psi_start + 0 + 1) vars0 0 - psi') /\
    nth_error fg' (2 + v_start + 0) = Some (nth (v_start + 0 + 1) vars0 0 - v').
Proof.
  assert (H1 : solver_sized fge0 fg0 vars0)
    by (split; [ reflexivity | split; [ reflexivity | simpl; lia ] ]).
  assert (H2 : (0 < N - 1)%nat) by (unfold N; simpl; lia).
  split; [ exact H1 | ]. split; [ exact H2 | ].
  exact (proj2 residuals_agree_with_Predict fge0 fg0 vars0 0%nat H1 H2).
Defined.

End RealProperties.

Section ConcreteInputs.

Local Open Scope scalar_scope.

(** C6, at the seeded trajectory of the zero state. *)
Lemma trajectory_vector_layout_witness :
  (6 <= List.length state0) /\
  (well_sized tr0) /\
  (List.length fg0 = (1 + 6 * N)%nat) /\
  (4 <= List.length (coeffs fge0)) /\
  ((* what Solve builds, block by block *)
  (exists p,
     Solve_problem mpc0 state0 coeffs0 = Ok p /\
     List.length (xi p) = (6 * N + 2 * (N - 1))%nat /\
     xi p = map Some (encode
       {| xs := var state0 0 :: repeat #0.0 (N - 1);
          ys := var state0 1 :: repeat #0.0 (N - 1);
          psis := var state0 2 :: repeat #0.0 (N - 1);
          vs := var state0 3 :: repeat #0.0 (N - 1);
          ctes := var state0 4 :: repeat #0.0 (N - 1);
          epsis := var state0 5 :: repeat #0.0 (N - 1);
          deltas := repeat #0.0 (N - 1);
          accs := repeat #0.0 (N - 1) |}) /\
     xl p = map Some (encode
       {| xs := repeat (- #1.0e19) N; ys := repeat (- #1.0e19) N;
          psis := repeat (- #1.0e19) N; vs := repeat (- #1.0e19) N;
          ctes := repeat (- #1.0e19) N; epsis := repeat (- #1.0e19) N;
          deltas := repeat (- #0.436332) (N - 1);
          accs := repeat (- #1.0) (N - 1) |}) /\
     xu p = map Some (encode
       {| xs := repeat #1.0e19 N; ys := repeat #1.0e19 N;
          psis := repeat #1.0e19 N; vs := repeat #1.0e19 N;
          ctes := repeat #1.0e19 N; epsis := repeat #1.0e19 N;
          deltas := repeat #0.436332 (N - 1);
          accs := repeat #1.0 (N - 1) |}) /\
     gl p = map Some (encode
       {| xs := var state0 0 :: repeat #0 (N - 1);
          ys := var state0 1 :: repeat #0 (N - 1);
          psis := var state0 2 :: repeat #0 (N - 1);
          vs := var state0 3 :: repeat #0 (N - 1);
          ctes := var state0 4 :: repeat #0 (N - 1);
          epsis := var state0 5 :: repeat #0 (N - 1);
          deltas := []; accs := [] |}) /\
     gu p = gl p /\
     (* the blocks of the vector, by the offsets *)
     (y_start - x_start = N /\ psi_start - y_start = N /\
      v_start - psi_start = N /\ cte_start - v_start = N /\
      epsi_start - cte_start = N /\ delta_start - epsi_start = N /\
      a_start - delta_start = N - 1 /\
      List.length (xi p) - a_start = N - 1 /\
      S (a_start - delta_start) = y_start - x_start /\
      S (List.length (xi p) - a_start) = y_start - x_start)%nat) /\
  (* the offsets are where the blocks of an encoding start *)
  List.length (encode tr0) = (6 * N + 2 * (N - 1))%nat /\
  (forall t, (t < N)%nat ->
     nth_error (encode tr0) (x_start + t) = nth_error (xs tr0) t /\
     nth_error (encode tr0) (y_start + t) = nth_error (ys tr0) t /\
     nth_error (encode tr0) (psi_start + t) = nth_error (psis tr0) t /\
     nth_error (encode tr0) (v_start + t) = nth_error (vs tr0) t /\
     nth_error (encode tr0) (cte_start + t) = nth_error (ctes tr0) t /\
     nth_error (encode tr0) (epsi_start + t) = nth_error (epsis tr0) t) /\
  (forall t, (t < N - 1)%nat ->
     nth_error (encode tr0) (delta_start + t) = nth_error (deltas tr0) t /\
     nth_error (encode tr0) (a_start + t) = nth_error (accs tr0) t) /\
  (* every value the builder uses comes from the block of its kind *)
  (exists fg',
     FG_eval_call fge0 fg0 (encode tr0) = Ok fg' /\
     nth_error fg' 0 = Some (trajectory_cost fge0 tr0) /\
     nth_error fg' (1 + x_start) = nth_error (xs tr0) 0 /\
     nth_error fg' (1 + y_start) = nth_error (ys tr0) 0 /\
     nth_error fg' (1 + psi_start) = nth_error (psis tr0) 0 /\
     nth_error fg' (1 + v_start) = nth_error (vs tr0) 0 /\
     nth_error fg' (1 + cte_start) = nth_error (ctes tr0) 0 /\
     nth_error fg' (1 + epsi_start) = nth_error (epsis tr0) 0 /\
     forall t, (t < N - 1)%nat ->
       let x := var (xs tr0) t in
       let y := var (ys tr0) t in
       let psi := var (psis tr0) t in
       let v := var (vs tr0) t in
       let epsi := var (epsis tr0) t in
       let delta := var (deltas tr0) t in
       let alpha := var (accs tr0) t in
       let c0 := var (coeffs fge0) 0 in
       let c1 := var (coeffs fge0) 1 in
       let c2 := var (coeffs fge0) 2 in
       let c3 := var (coeffs fge0) 3 in
       nth_error fg' (2 + x_start + t) =
         Some (var (xs tr0) (t + 1) - (x + v * scos psi * dt)) /\
       nth_error fg' (2 + y_start + t) =
         Some (var (ys tr0) (t + 1) - (y + v * ssin psi * dt)) /\
       nth_error fg' (2 + psi_start + t) =
         Some (var (psis tr0) (t + 1) - (psi + v * delta / Lf * dt)) /\
       nth_error fg' (2 + v_start + t) =
         Some (var (vs tr0) (t + 1) - (v + alpha * dt)) /\
       nth_error fg' (2 + cte_start + t) =
         Some (var (ctes tr0) (t + 1)
               - ((c0 + c1 * x + c2 * spow x 2 + c3 * spow x 3 - y)
                  + (v * ssin epsi * dt))) /\
       nth_error fg' (2 + epsi_start + t) =
         Some (var (epsis tr0) (t + 1)
               - ((psi - satan (c1 + (#2 * c3 * x) + (#3 * c3 * spow x 2)))
                  + v * delta / Lf * dt)))).
Proof.
  assert (H1 : 6 <= List.length state0)
    by (simpl; lia).
  assert (H2 : well_sized tr0)
    by (repeat split).
  assert (H3 : List.length fg0 = (1 + 6 * N)%nat)
    by (reflexivity).
  assert (H4 : 4 <= List.length (coeffs fge0))
    by (simpl; lia).
  split; [ exact H1 | ].
  split; [ exact H2 | ].
  split; [ exact H3 | ].
  split; [ exact H4 | ].
  apply trajectory_vector_layout; assumption.
Defined.

(** C8, at a measured state with [x = 1]. *)
Lemma initial_state_pinned_by_bounds_witness :
  (6 <= List.length state1) /\
  (solver_sized fge0 fg0 vars0) /\
  (exists p fg',
    Solve_problem mpc0 state1 coeffs0 = Ok p /\
    FG_eval_call fge0 fg0 vars0 = Ok fg' /\
    List.length fg' = (1 + 6 * N)%nat /\
    (nth_error fg' (1 + x_start) = nth_error vars0 x_start /\
     nth_error fg' (1 + y_start) = nth_error vars0 y_start /\
     nth_error fg' (1 + psi_start) = nth_error vars0 psi_start /\
     nth_error fg' (1 + v_start) = nth_error vars0 v_start /\
     nth_error fg' (1 + cte_start) = nth_error vars0 cte_start /\
     nth_error fg' (1 + epsi_start) = nth_error vars0 epsi_start) /\
    List.length (gl p) = (6 * N)%nat /\
    gu p = gl p /\
    (nth_error (gl p) x_start = Some (Some (var state1 0)) /\
     nth_error (gl p) y_start = Some (Some (var state1 1)) /\
     nth_error (gl p) psi_start = Some (Some (var state1 2)) /\
     nth_error (gl p) v_start = Some (Some (var state1 3)) /\
     nth_error (gl p) cte_start = Some (Some (var state1 4)) /\
     nth_error (gl p) epsi_start = Some (Some (var state1 5))) /\
    (forall t, (1 <= t < N)%nat ->
       nth_error (gl p) (x_start + t) = Some (Some #0) /\
       nth_error (gl p) (y_start + t) = Some (Some #0) /\
       nth_error (gl p) (psi_start + t) = Some (Some #0) /\
       nth_error (gl p) (v_start + t) = Some (Some #0) /\
       nth_error (gl p) (cte_start + t) = Some (Some #0) /\
       nth_error (gl p) (epsi_start + t) = Some (Some #0))).
Proof.
  assert (H1 : 6 <= List.length state1) by (simpl; lia).
  assert (H2 : solver_sized fge0 fg0 vars0)
    by (split; [ reflexivity | split; [ reflexivity | simpl; lia ] ]).
  split; [ exact H1 | ]. split; [ exact H2 | ].
  apply initial_state_pinned_by_bounds; assumption.
Defined.

(** C7, at the zero state. *)
Lemma variable_bounds_witness :
  (6 <= List.length state0) /\
  (exists p,
    Solve_problem mpc0 state0 coeffs0 = Ok p /\
    List.length (xl p) = (6 * N + 2 * (N - 1))%nat /\
    List.length (xu p) = (6 * N + 2 * (N - 1))%nat /\
    (forall i, (i < 6 * N)%nat ->
       nth_error (xl p) i = Some (Some (- #1.0e19)) /\
       nth_error (xu p) i = Some (Some #1.0e19)) /\
    (forall i, (i < N - 1)%nat ->
       nth_error (xl p) (delta_start + i) = Some (Some (- #0.436332)) /\
       nth_error (xu p) (delta_start + i) = Some (Some #0.436332)) /\
    (forall i, (i < N - 1)%nat ->
       nth_error (xl p) (a_start + i) = Some (Some (- #1.0)) /\
       nth_error (xu p) (a_start + i) = Some (Some #1.0))).
Proof.
  assert (H1 : 6 <= List.length state0) by (simpl; lia).
  split; [ exact H1 | ].
  apply variable_bounds; assumption.
Defined.

(** C10, at a six-component state, the size that [Solve] consumes. *)
Lemma Predict_leaves_tail_unwritten_witness :
  4 < List.length [0%R; 0%R; 0%R; 10%R; 0%R; 0%R] /\
  2 <= List.length [0%R; 0%R] /\
  exists next_state,
    Predict [0%R; 0%R; 0%R; 10%R; 0%R; 0%R] [0%R; 0%R] 0.1%R = Ok next_state /\
    List.length next_state = List.length [0%R; 0%R; 0%R; 10%R; 0%R; 0%R] /\
    (forall i, (i < 4)%nat -> exists d, nth_error next_state i = Some (Some d)) /\
    (forall i, (4 <= i < List.length [0%R; 0%R; 0%R; 10%R; 0%R; 0%R])%nat ->
       nth_error next_state i = Some None).
Proof.
  split; [ simpl; lia | ]. split; [ simpl; lia | ].
  apply Predict_leaves_tail_unwritten; simpl; lia.
Defined.



End ConcreteInputs.

(** * Further properties of the code *)

(** ** What a successful run implies *)

Section Inversion.

Context {T : Type} {ST : Scalar T}.
Local Open Scope scalar_scope.

Lemma bind_Ok (A B : Type) (m : res A) (k : A -> res B) (r : B) :
  bind m k = Ok r -> exists a, m = Ok a /\ k a = Ok r.
Proof.
  destruct m as [a|]; simpl; intros H; [ now exists a | discriminate ].
Qed.

Lemma rd_Ok (A : Type) (v : list A) (i : nat) (a : A) :
  rd v i = Ok a -> (i < List.length v)%nat.
Proof.
  unfold rd. destruct (nth_error v i) eqn:E; [ | discriminate ].
  intros _. apply nth_error_Some. congruence.
Qed.

Lemma wr_Ok (A : Type) (v v' : list A) (i : nat) (a : A) :
  wr v i a = Ok v' -> (i < List.length v)%nat /\ List.length v' = List.length v.
Proof.
  unfold wr. destruct (i <? List.length v) eqn:E; [ | discriminate ].
  intros H. injection H as <-. apply Nat.ltb_lt in E. split; [ exact E | ].
  clear E. revert i. induction v as [|b v IH]; intros [|i]; simpl; auto.
Qed.

Lemma incr_Ok (fg fg' : list T) (i : nat) (e : T) :
  incr fg i e = Ok fg' -> (i < List.length fg)%nat /\ List.length fg' = List.length fg.
Proof.
  unfold incr. intros H. apply bind_Ok in H as (c & _ & H). now apply wr_Ok in H.
Qed.

(** A loop that ends well has run its body, with success, at every index
    of its range, on states that satisfy any invariant of the body. *)
Lemma iter_Ok (St : Type) (I : St -> Prop) (body : nat -> St -> res St) :
  (forall j s s', I s -> body j s = Ok s' -> I s') ->
  forall n i s r, I s -> iter n i body s = Ok r ->
    I r /\ forall j, (i <= j < i + n)%nat -> exists s1 s2, I s1 /\ body j s1 = Ok s2.
Proof.
  intros Hbody. induction n as [|n IH]; intros i s r Hs H; simpl in H.
  - injection H as <-. split; [ exact Hs | intros j Hj; lia ].
  - apply bind_Ok in H as (s' & Hb & H).
    destruct (IH (S i) s' r (Hbody _ _ _ Hs Hb) H) as (Hr & Hrest).
    split; [ exact Hr | ]. intros j Hj.
    destruct (Nat.eq_dec j i) as [->|Hne].
    + now exists s, s'.
    + apply Hrest. lia.
Qed.

End Inversion.

(** Inversion of a run of binds that ended well: every read was in range
    and every write kept the length. *)
Ltac unbind_all H :=
  repeat match type of H with
  | bind _ _ = Ok _ =>
      let a := fresh "a" in let E := fresh "E" in
      apply bind_Ok in H as (a & E & H);
      first [ apply rd_Ok in E
            | apply wr_Ok in E as (? & ?)
            | apply incr_Ok in E as (? & ?)
            | idtac ]
  end;
  first [ apply wr_Ok in H as (? & ?)
        | apply incr_Ok in H as (? & ?)
        | idtac ].

Section BuilderDomain.

Context {T : Type} {ST : Scalar T}.
Local Open Scope scalar_scope.

(** The builder on vectors at least as long as the solver's: the entries
    of [fg] past the objective and the constraints stay as they were, and
    what is written does not depend on what [fg] held before. *)
Lemma FG_eval_call_tail (self : FG_eval) (pre tail vars : list T) :
  List.length pre = (1 + 6 * N)%nat ->
  6 * N + 2 * (N - 1) <= List.length vars ->
  4 <= List.length (coeffs self) ->
  exists out,
    FG_eval_call self (repeat #0 (1 + 6 * N)) vars = Ok out /\
    List.length out = (1 + 6 * N)%nat /\
    FG_eval_call self (pre ++ tail) vars = Ok (out ++ tail).
Proof.
  intros Hpre Hvars Hc.
  destruct self as [cs rc re rv]; simpl in Hc.
  do 4 (destruct cs as [|? cs]; [ simpl in Hc; lia | ]).
  explode pre Hpre.
  do 86 (destruct vars as [|? vars]; [ simpl in Hvars; unfold N in Hvars; simpl in Hvars; lia | ]).
  eexists. split; [ vm_compute; reflexivity | ].
  split; [ reflexivity | vm_compute; reflexivity ].
Qed.

Lemma FG_eval_call_needs_sizes (self : FG_eval) (fg vars r : list T) :
  FG_eval_call self fg vars = Ok r ->
  1 + 6 * N <= List.length fg /\
  6 * N + 2 * (N - 1) <= List.length vars /\
  4 <= List.length (coeffs self).
Proof.
  unfold FG_eval_call, for_loop. intros H.
  apply bind_Ok in H as (f0 & W0 & H). apply wr_Ok in W0 as (_ & L0).
  apply bind_Ok in H as (f1 & P1 & H).
  apply (iter_Ok (fun s => List.length s = List.length fg)) in P1 as (L1 & _);
    [ | intros j s s' Hs Hb; unbind_all Hb; congruence | exact L0 ].
  apply bind_Ok in H as (f2 & P2 & H).
  apply (iter_Ok (fun s => List.length s = List.length fg)) in P2 as (L2 & B2);
    [ | intros j s s' Hs Hb; unbind_all Hb; congruence | exact L1 ].
  apply bind_Ok in H as (f3 & P3 & H).
  apply (iter_Ok (fun s => List.length s = List.length fg)) in P3 as (L3 & _);
    [ | intros j s s' Hs Hb; unbind_all Hb; congruence | exact L2 ].
  do 6 (apply bind_Ok in H as (? & _ & H);
        let f := fresh "f" in let W := fresh "W" in
        apply bind_Ok in H as (f & W & H); apply wr_Ok in W as (_ & W);
        rewrite L3 in W; clear L3; rename W into L3).
  apply (iter_Ok (fun s => List.length s = List.length fg)) in H as (_ & B4);
    [ | intros j s s' Hs Hb; unbind_all Hb; congruence | exact L3 ].
  destruct (B2 9%nat) as (s1 & s2 & _ & Hb2); [ unfold N; simpl; lia | ].
  destruct (B4 9%nat) as (t1 & t2 & Lt & Hb4); [ unfold N; simpl; lia | ].
  unbind_all Hb2. unbind_all Hb4.
  change (a_start + 9)%nat with 85%nat in *.
  change (2 + epsi_start + 9)%nat with 66%nat in *.
  change (6 * N + 2 * (N - 1))%nat with 86%nat.
  change (1 + 6 * N)%nat with 67%nat.
  repeat split; lia.
Qed.

(** The builder ends well exactly when [fg] has room for the objective
    and the [6*N] constraints, [vars] holds the [6*N + 2*(N-1)] variables
    and there are four coefficients; longer vectors are accepted. *)
Theorem FG_eval_call_succeeds_iff (self : FG_eval) (fg vars : list T) :
  (exists fg', FG_eval_call self fg vars = Ok fg') <->
  (1 + 6 * N <= List.length fg /\
   6 * N + 2 * (N - 1) <= List.length vars /\
   4 <= List.length (coeffs self)).
Proof.
  split.
  - intros [r H]. exact (FG_eval_call_needs_sizes _ _ _ H).
  - intros (Hfg & Hvars & Hc).
    rewrite <- (firstn_skipn (1 + 6 * N) fg).
    destruct (FG_eval_call_tail self (firstn (1 + 6 * N) fg)
                (skipn (1 + 6 * N) fg) vars) as (out & _ & _ & Hrun);
      [ apply firstn_length_le; exact Hfg | exact Hvars | exact Hc | ].
    exists (out ++ skipn (1 + 6 * N) fg). exact Hrun.
Qed.

End BuilderDomain.

Section BuilderFrame.

Context {T : Type} {ST : Scalar T}.
Local Open Scope scalar_scope.

(** The builder overwrites the objective and the [6*N] constraint entries
    of [fg] with values that do not depend on what [fg] held, and leaves
    every later entry of [fg] as it was. *)
Theorem FG_eval_call_overwrites_fg (self : FG_eval)
    (pre pre' tail tail' vars : list T) :
  List.length pre = (1 + 6 * N)%nat ->
  List.length pre' = (1 + 6 * N)%nat ->
  6 * N + 2 * (N - 1) <= List.length vars ->
  4 <= List.length (coeffs self) ->
  exists out,
    List.length out = (1 + 6 * N)%nat /\
    FG_eval_call self (pre ++ tail) vars = Ok (out ++ tail) /\
    FG_eval_call self (pre' ++ tail') vars = Ok (out ++ tail').
Proof.
  intros Hpre Hpre' Hvars Hc.
  destruct (FG_eval_call_tail self pre tail vars Hpre Hvars Hc)
    as (out & Hz & Hlen & Hrun).
  destruct (FG_eval_call_tail self pre' tail' vars Hpre' Hvars Hc)
    as (out' & Hz' & _ & Hrun').
  assert (out' = out) by congruence. subst out'.
  exists out. repeat split; assumption.
Qed.

(** The builder reads the first [6*N + 2*(N-1)] variables and the first
    four coefficients only: whatever follows them changes nothing. *)
Theorem FG_eval_call_reads_prefixes (cs cs' vars vars' fg : list T)
    (rc re rv : T) :
  1 + 6 * N <= List.length fg ->
  6 * N + 2 * (N - 1) <= List.length vars ->
  4 <= List.length cs ->
  firstn (6 * N + 2 * (N - 1)) vars' = firstn (6 * N + 2 * (N - 1)) vars ->
  firstn 4 cs' = firstn 4 cs ->
  FG_eval_call (mkFG_eval cs' rc re rv) fg vars' =
  FG_eval_call (mkFG_eval cs rc re rv) fg vars.
Proof.
  intros Hfg Hvars Hc Ev Ec.
  rewrite <- (firstn_skipn (1 + 6 * N) fg).
  assert (Hpre : List.length (firstn (1 + 6 * N) fg) = (1 + 6 * N)%nat)
    by (apply firstn_length_le; exact Hfg).
  revert Hpre. generalize (firstn (1 + 6 * N) fg) (skipn (1 + 6 * N) fg).
  intros pre tail Hpre. clear fg Hfg.
  rewrite <- (firstn_skipn (6 * N + 2 * (N - 1)) vars').
  rewrite <- (firstn_skipn (6 * N + 2 * (N - 1)) vars).
  rewrite <- (firstn_skipn 4 cs'), <- (firstn_skipn 4 cs).
  rewrite Ev, Ec.
  assert (Hv : List.length (firstn (6 * N + 2 * (N - 1)) vars)
               = (6 * N + 2 * (N - 1))%nat)
    by (apply firstn_length_le; exact Hvars).
  assert (Hc4 : List.length (firstn 4 cs) = 4%nat)
    by (apply firstn_length_le; exact Hc).
  revert Hv Hc4.
  generalize (firstn (6 * N + 2 * (N - 1)) vars) (firstn 4 cs).
  generalize (skipn (6 * N + 2 * (N - 1)) vars') (skipn (6 * N + 2 * (N - 1)) vars).
  generalize (skipn 4 cs') (skipn 4 cs).
  intros ctail' ctail vtail' vtail v86 c4 Hv Hc4.
  explode pre Hpre. explode v86 Hv. explode c4 Hc4.
  vm_compute. reflexivity.
Qed.

End BuilderFrame.

Section SolveAndPredict.

Context {T : Type} {ST : Scalar T}.
Local Open Scope scalar_scope.




(** The vectors that [Solve] hands to the solver: the variable bounds and
    the options are the same for every state, controller and path; the
    initial point and the constraint bounds depend on the first six
    components of the state alone; the builder receives the coefficients
    as they came and the three reference targets of the controller, whose
    members [N_] and [dt_] play no part. *)
Theorem Solve_problem_depends_on (self self' : MPC) (state state' cfs cfs' : list T) :
  6 <= List.length state ->
  6 <= List.length state' ->
  exists p p',
    Solve_problem self state cfs = Ok p /\
    Solve_problem self' state' cfs' = Ok p' /\
    options p' = options p /\ xl p' = xl p /\ xu p' = xu p /\
    (firstn 6 state' = firstn 6 state ->
       xi p' = xi p /\ gl p' = gl p /\ gu p' = gu p) /\
    fg_eval p = mkFG_eval cfs (ref_cte_ self) (ref_epsi_ self) (ref_v_ self).
Proof.
  intros H6 H6'.
  destruct (at_least_six state H6) as (x & y & psi & v & cte & epsi & rest & ->).
  destruct (at_least_six state' H6') as (x' & y' & psi' & v' & cte' & epsi' & rest' & ->).
  rewrite !Solve_problem_run. do 2 eexists.
  split; [ reflexivity | ]. split; [ reflexivity | ].
  cbn [options xl xu xi gl gu fg_eval].
  split; [ reflexivity | ]. split; [ reflexivity | ]. split; [ reflexivity | ].
  split; [ | reflexivity ].
  intros E. cbn [firstn] in E. injection E as -> -> -> -> -> ->.
  repeat split.
Qed.

(** [Init] replaces the three reference targets and nothing else, and the
    targets that reach the builder are those of the last [Init]. *)
Theorem Init_sets_builder_targets (self : MPC) (a0 b0 c0 a b c : T)
    (state cfs : list T) :
  6 <= List.length state ->
  exists p,
    Solve_problem (Init (Init self a0 b0 c0) a b c) state cfs = Ok p /\
    fg_eval p = mkFG_eval cfs a b c /\
    N_ (Init self a b c) = N_ self /\
    dt_ (Init self a b c) = dt_ self /\
    Init (Init self a0 b0 c0) a b c = Init self a b c.
Proof.
  intros H6.
  destruct (at_least_six state H6) as (x & y & psi & v & cte & epsi & rest & ->).
  rewrite Solve_problem_run. eexists. repeat split.
Qed.

(** [Predict] ends well exactly on a state of four components or more
    and an actuation of two or more. *)
Theorem Predict_succeeds_iff (state actuators : list T) (dt : T) :
  (exists next_state, Predict state actuators dt = Ok next_state) <->
  (4 <= List.length state /\ 2 <= List.length actuators).
Proof.
  split.
  - intros [r H]. unfold Predict in H.
    do 6 (apply bind_Ok in H as (? & ?%rd_Ok & H)). lia.
  - intros [Hs Ha].
    do 4 (destruct state as [|? state]; [ simpl in Hs; lia | ]).
    do 2 (destruct actuators as [|? actuators]; [ simpl in Ha; lia | ]).
    rewrite Predict_run. eexists. reflexivity.
Qed.

(** The path coefficients reach the cte and epsi residuals only: two
    builders with the same targets and any two paths write the same
    objective, the same timestep-0 entries and the same x, y, psi and v
    residuals.  The epsi residuals see no coefficient but [coeffs[1]]
    and [coeffs[3]]: they are the same as soon as the paths agree on
    these two. *)
Theorem coefficients_reach_cte_and_epsi_only (cs cs' fg vars : list T)
    (rc re rv : T) :
  List.length fg = (1 + 6 * N)%nat ->
  List.length vars = (6 * N + 2 * (N - 1))%nat ->
  4 <= List.length cs ->
  4 <= List.length cs' ->
  exists out out',
    FG_eval_call (mkFG_eval cs rc re rv) fg vars = Ok out /\
    FG_eval_call (mkFG_eval cs' rc re rv) fg vars = Ok out' /\
    nth_error out' 0 = nth_error out 0 /\
    (nth_error out' (1 + x_start) = nth_error out (1 + x_start) /\
     nth_error out' (1 + y_start) = nth_error out (1 + y_start) /\
     nth_error out' (1 + psi_start) = nth_error out (1 + psi_start) /\
     nth_error out' (1 + v_start) = nth_error out (1 + v_start) /\
     nth_error out' (1 + cte_start) = nth_error out (1 + cte_start) /\
     nth_error out' (1 + epsi_start) = nth_error out (1 + epsi_start)) /\
    (forall t, (t < N - 1)%nat ->
       nth_error out' (2 + x_start + t) = nth_error out (2 + x_start + t) /\
       nth_error out' (2 + y_start + t) = nth_error out (2 + y_start + t) /\
       nth_error out' (2 + psi_start + t) = nth_error out (2 + psi_start + t) /\
       nth_error out' (2 + v_start + t) = nth_error out (2 + v_start + t)) /\
    (nth_error cs' 1 = nth_error cs 1 ->
     nth_error cs' 3 = nth_error cs 3 ->
     forall t, (t < N - 1)%nat ->
       nth_error out' (2 + epsi_start + t) = nth_error out (2 + epsi_start + t)).
Proof.
  intros Hfg Hvars Hc Hc'.
  do 4 (destruct cs as [|? cs]; [ simpl in Hc; lia | ]).
  do 4 (destruct cs' as [|? cs']; [ simpl in Hc'; lia | ]).
  explode fg Hfg. explode vars Hvars.
  do 2 eexists. split; [ vm_compute; reflexivity | ].
  split; [ vm_compute; reflexivity | ].
  split; [ reflexivity | ]. split; [ repeat split | ].
  split.
  - intros step Hstep. first_cases step Hstep.
  - intros E1 E3. cbn [nth_error] in E1, E3.
    injection E1 as ->. injection E3 as ->.
    intros step Hstep. first_cases step Hstep.
Qed.

End SolveAndPredict.

(** ** The kinematic step and the objective, over the real numbers *)

Section RealModel.

Local Open Scope R_scope.

(** A step of zero duration changes nothing, whatever the actuation. *)
Theorem Predict_zero_dt_is_identity (x y psi v delta a : R) :
  Predict [x; y; psi; v] [delta; a] 0 = Ok [Some x; Some y; Some psi; Some v].
Proof.
  rewrite Predict_run. to_reals. simpl repeat. rewrite Lf_value.
  replace (x + v * cos psi * 0) with x by ring.
  replace (y + v * sin psi * 0) with y by ring.
  replace (psi + v / 2.67 * delta * 0) with psi by (field; lra).
  replace (v + a * 0) with v by ring.
  reflexivity.
Qed.

(** Without actuation two steps in a row are one step over the sum of
    their durations. *)
Theorem Predict_coasting_composes (x y psi v dt1 dt2 : R) :
  exists x1 y1 psi1 v1,
    Predict [x; y; psi; v] [0; 0] dt1 = Ok [Some x1; Some y1; Some psi1; Some v1] /\
    Predict [x1; y1; psi1; v1] [0; 0] dt2 = Predict [x; y; psi; v] [0; 0] (dt1 + dt2).
Proof.
  do 4 eexists. split; [ rewrite Predict_run; reflexivity | ].
  rewrite !Predict_run. to_reals. simpl repeat. rewrite Lf_value.
  replace (psi + v / 2.67 * 0 * dt1) with psi by (field; lra).
  replace (v + 0 * dt1) with v by ring.
  f_equal.
  f_equal; [ f_equal; ring | ].
  f_equal; [ f_equal; ring | ].
  f_equal; [ f_equal; field; lra | ].
  do 2 f_equal. ring.
Qed.

(** The geometry of one step: the car moves the distance [|v| dt]; the
    heading changes by [v delta dt / Lf], so that at forward speed a
    positive steering angle increases the heading; the speed changes by
    [a dt], so that a positive [a] speeds the car up. *)
Theorem Predict_step_geometry (x y psi v delta a dt : R) :
  exists x' y' psi' v',
    Predict [x; y; psi; v] [delta; a] dt = Ok [Some x'; Some y'; Some psi'; Some v'] /\
    (x' - x) ^ 2 + (y' - y) ^ 2 = (v * dt) ^ 2 /\
    psi' - psi = v * delta * dt / 2.67 /\
    v' - v = a * dt /\
    (0 < v -> 0 < dt -> (psi < psi' <-> 0 < delta)) /\
    (0 < dt -> (v < v' <-> 0 < a)).
Proof.
  do 4 eexists. split; [ rewrite Predict_run; reflexivity | ].
  to_reals. rewrite Lf_value.
  assert (Hsc := sin2_cos2 psi). unfold Rsqr in Hsc.
  split; [ | split; [ field; lra | split; [ ring | split ] ] ].
  - replace ((x + v * cos psi * dt - x) ^ 2 + (y + v * sin psi * dt - y) ^ 2)
      with ((v * dt) ^ 2 * (sin psi * sin psi + cos psi * cos psi)) by ring.
    rewrite Hsc. ring.
  - intros Hv Hdt.
    assert (Hk : 0 < v / 2.67 * dt).
    { apply Rmult_lt_0_compat; [ | exact Hdt ].
      apply Rdiv_lt_0_compat; lra. }
    replace (psi + v / 2.67 * delta * dt) with (psi + v / 2.67 * dt * delta)
      by (field; lra).
    split; intros H; nra.
  - intros Hdt. split; intros H; nra.
Qed.

Lemma sum_list_zero_iff (f : nat -> R) (l : list nat) :
  (forall t, In t l -> 0 <= f t) ->
  0 <= fold_right (fun t acc => f t + acc) 0 l /\
  (fold_right (fun t acc => f t + acc) 0 l = 0 <-> forall t, In t l -> f t = 0).
Proof.
  induction l as [|i l IH]; intros Hf; simpl.
  - split; [ lra | ]. split; [ intros _ t [] | reflexivity ].
  - destruct IH as (Hge & Hiff); [ intros t Ht; apply Hf; now right | ].
    assert (Hi : 0 <= f i) by (apply Hf; now left).
    split; [ lra | ]. split.
    + intros H t [<-|Ht]; [ lra | ]. apply Hiff; [ lra | exact Ht ].
    + intros H. rewrite (H i) by now left.
      replace (fold_right (fun t acc => f t + acc) 0 l) with 0; [ lra | ].
      symmetry. apply Hiff. intros t Ht. apply H. now right.
Qed.

Lemma sum_below_zero_iff (n : nat) (f : nat -> R) :
  (forall t, (t < n)%nat -> 0 <= f t) ->
  0 <= sum_below n f /\
  (sum_below n f = 0 <-> forall t, (t < n)%nat -> f t = 0).
Proof.
  intros Hf. unfold sum_below.
  destruct (@sum_list_zero_iff f (seq 0 n)) as (Hge & Hiff).
  { intros t Ht. apply in_seq in Ht. apply Hf. lia. }
  split; [ exact Hge | ]. rewrite Hiff. split; intros H t Ht; apply H.
  - apply in_seq. lia.
  - apply in_seq in Ht. lia.
Qed.

Lemma square_zero (a : R) : a ^ 2 = 0 -> a = 0.
Proof.
  intros H. apply Rsqr_eq_0. unfold Rsqr. rewrite <- H. ring.
Qed.

Lemma tracking_term (a b c : R) :
  0 <= 16 * a ^ 2 + 12 * b ^ 2 + 1 * c ^ 2 /\
  (16 * a ^ 2 + 12 * b ^ 2 + 1 * c ^ 2 = 0 -> a = 0 /\ b = 0 /\ c = 0).
Proof.
  pose proof (pow2_ge_0 a). pose proof (pow2_ge_0 b). pose proof (pow2_ge_0 c).
  split; [ lra | ]. intros H2.
  repeat split; apply square_zero; lra.
Qed.

Lemma actuation_term (d a : R) :
  0 <= 8 * d ^ 2 + 6 * a ^ 2 /\
  (8 * d ^ 2 + 6 * a ^ 2 = 0 -> d = 0 /\ a = 0).
Proof.
  pose proof (pow2_ge_0 d). pose proof (pow2_ge_0 a).
  split; [ lra | ]. intros H1. split; apply square_zero; lra.
Qed.

Lemma smoothness_term (d a : R) : 0 <= 400 * d ^ 2 + 10 * a ^ 2.
Proof.
  pose proof (pow2_ge_0 d). pose proof (pow2_ge_0 a). lra.
Qed.

Lemma spec_objective_zero_iff (self : @FG_eval R) (vars : list R) :
  0 <= spec_objective self vars /\
  (spec_objective self vars = 0 <->
   (forall t, (t < N)%nat ->
      nth (cte_start + t) vars 0 = ref_cte self /\
      nth (epsi_start + t) vars 0 = ref_epsi self /\
      nth (v_start + t) vars 0 = ref_v self) /\
   (forall t, (t < N - 1)%nat ->
      nth (delta_start + t) vars 0 = 0 /\ nth (a_start + t) vars 0 = 0)).
Proof.
  unfold spec_objective. cbv zeta.
  match goal with |- 0 <= sum_below N ?f1 + sum_below _ ?f2 + sum_below _ ?f3 /\ _ =>
    destruct (@sum_below_zero_iff N f1) as (G1 & Z1);
      [ intros t _; apply tracking_term | ];
    destruct (@sum_below_zero_iff (N - 1) f2) as (G2 & Z2);
      [ intros t _; apply actuation_term | ];
    destruct (@sum_below_zero_iff (N - 2) f3) as (G3 & Z3);
      [ intros t _; apply smoothness_term | ];
    set (S1 := sum_below N f1) in *; set (S2 := sum_below (N - 1) f2) in *;
    set (S3 := sum_below (N - 2) f3) in *
  end.
  split; [ lra | ]. split.
  - intros H. assert (E1 : S1 = 0) by lra. assert (E2 : S2 = 0) by lra.
    split; intros t Ht.
    + pose proof (proj1 Z1 E1 t Ht) as E. cbv beta in E.
      apply tracking_term in E. repeat split; lra.
    + pose proof (proj1 Z2 E2 t Ht) as E. cbv beta in E.
      apply actuation_term in E. exact E.
  - intros [H1 H2].
    assert (E1 : S1 = 0).
    { apply Z1. intros t Ht. destruct (H1 t Ht) as (-> & -> & ->). ring. }
    assert (E2 : S2 = 0).
    { apply Z2. intros t Ht. destruct (H2 t Ht) as (-> & ->). ring. }
    assert (E3 : S3 = 0).
    { apply Z3. intros t Ht.
      destruct (H2 t) as (-> & ->); [ clear - Ht; unfold N in *; lia | ].
      destruct (H2 (t + 1)%nat) as (-> & ->);
        [ clear - Ht; unfold N in *; lia | ].
      ring. }
    lra.
Qed.

(** The objective that the builder writes is never negative, and it is
    zero exactly when cte, epsi and v sit on their targets at every
    timestep and every actuation is zero. *)
Theorem objective_vanishes_iff (self : @FG_eval R) (fg vars : list R) :
  solver_sized self fg vars ->
  exists fg' c,
    FG_eval_call self fg vars = Ok fg' /\
    nth_error fg' 0 = Some c /\
    0 <= c /\
    (c = 0 <->
     (forall t, (t < N)%nat ->
        nth (cte_start + t) vars 0 = ref_cte self /\
        nth (epsi_start + t) vars 0 = ref_epsi self /\
        nth (v_start + t) vars 0 = ref_v self) /\
     (forall t, (t < N - 1)%nat ->
        nth (delta_start + t) vars 0 = 0 /\ nth (a_start + t) vars 0 = 0)).
Proof.
  intros Hsized.
  destruct (FG_eval_call_run Hsized) as (fg' & Hrun & _ & Hcost & _).
  rewrite accumulated_cost_is_spec_objective in Hcost.
  exists fg', (spec_objective self vars).
  split; [ exact Hrun | ]. split; [ exact Hcost | ].
  apply spec_objective_zero_iff.
Qed.

(** At every timestep the cte residual is the next cte minus
    [(f x - y) + v sin(epsi) dt], with [f] the cubic of all four
    coefficients. *)
Theorem cte_residual_uses_cubic (self : @FG_eval R) (fg vars : list R) (t : nat) :
  solver_sized self fg vars ->
  (t < N - 1)%nat ->
  exists fg',
    FG_eval_call self fg vars = Ok fg' /\
    nth_error fg' (2 + cte_start + t) =
      Some (nth (cte_start + t + 1) vars 0
            - ((cubic (coeffs self) (nth (x_start + t) vars 0)
                - nth (y_start + t) vars 0)
               + nth (v_start + t) vars 0 * sin (nth (epsi_start + t) vars 0) * 0.1)).
Proof.
  intros Hsized Ht.
  destruct (FG_eval_call_run Hsized) as (fg' & Hrun & _ & _ & _ & Hres).
  destruct (Hres t Ht) as (_ & _ & _ & _ & Rcte & _). clear Hres.
  cbv zeta in Rcte. repeat rewrite var_real in Rcte.
  exists fg'. split; [ exact Hrun | ].
  rewrite Rcte. to_reals. rewrite dt_value. f_equal.
  unfold cubic, sum_below. simpl. field.
Qed.

End RealModel.

Section InitialPoint.

Context {T : Type} {ST : Scalar T}.
Local Open Scope scalar_scope.

(** The point from which [Solve] starts the solver meets the six
    timestep-0 constraints: there the builder's entry is the value to
    which [Solve] pins lower and upper bound. *)
Theorem initial_point_meets_initial_constraints (self : MPC)
    (state cfs fg : list T) :
  6 <= List.length state ->
  4 <= List.length cfs ->
  List.length fg = (1 + 6 * N)%nat ->
  exists p vars fg',
    Solve_problem self state cfs = Ok p /\
    xi p = map Some vars /\
    FG_eval_call (fg_eval p) fg vars = Ok fg' /\
    Forall (fun k => exists g,
              nth_error fg' (1 + k) = Some g /\
              nth_error (gl p) k = Some (Some g) /\
              nth_error (gu p) k = Some (Some g))
           [x_start; y_start; psi_start; v_start; cte_start; epsi_start].
Proof.
  intros H6 Hc Hfg.
  destruct (at_least_six state H6) as (x & y & psi & v & cte & epsi & rest & ->).
  rewrite Solve_problem_run.
  destruct (FG_eval_call_run
              (self := mkFG_eval cfs (ref_cte_ self) (ref_epsi_ self) (ref_v_ self))
              (fg := fg) (vars := encode (seeded x y psi v cte epsi)))
    as (fg' & Hrun & _ & _ & (I1 & I2 & I3 & I4 & I5 & I6) & _).
  { split; [ exact Hfg | split; [ reflexivity | exact Hc ] ]. }
  eexists. exists (encode (seeded x y psi v cte epsi)), fg'.
  split; [ reflexivity | ]. split; [ reflexivity | ]. split; [ exact Hrun | ].
  cbn [gl gu].
  repeat constructor; eexists;
    (split; [ eassumption | split; vm_compute; reflexivity ]).
Qed.

End InitialPoint.

Section RealProblem.

Local Open Scope R_scope.

Lemma lit_zero : Q2R 0 = 0.
Proof. rewrite lit_value. lra. Qed.

(** The variable bounds of [Solve] are symmetric intervals with room
    inside, and the point from which the solver starts lies within them
    when the state components lie within [-1e19, 1e19]. *)
Theorem initial_point_within_variable_bounds (self : @MPC R) (state cfs : list R) :
  (6 <= List.length state)%nat ->
  (forall k, (k < 6)%nat -> -1e19 <= nth k state 0 <= 1e19) ->
  exists p vars,
    Solve_problem self state cfs = Ok p /\
    xi p = map Some vars /\
    within vars (xl p) (xu p) /\
    forall j, (j < 6 * N + 2 * (N - 1))%nat ->
      exists u, nth_error (xl p) j = Some (Some (- u)) /\
                nth_error (xu p) j = Some (Some u) /\ 0 < u.
Proof.
  intros H6 Hb.
  destruct (at_least_six state H6) as (x & y & psi & v & cte & epsi & rest & ->).
  pose proof (Hb 0%nat ltac:(lia)) as Bx. pose proof (Hb 1%nat ltac:(lia)) as By.
  pose proof (Hb 2%nat ltac:(lia)) as Bpsi. pose proof (Hb 3%nat ltac:(lia)) as Bv.
  pose proof (Hb 4%nat ltac:(lia)) as Bcte. pose proof (Hb 5%nat ltac:(lia)) as Bepsi.
  cbn [nth] in Bx, By, Bpsi, Bv, Bcte, Bepsi. clear Hb.
  rewrite Solve_problem_run. do 2 eexists.
  split; [ reflexivity | ]. split; [ reflexivity | ]. cbn [xl xu].
  assert (L1 : Q2R 1.0e19 = 1e19).
  { change (Q2R 1.0e19) with (Q2R (Qmake 100000000000000000000 10)).
    rewrite lit_value. lra. }
  assert (L2 : 0 < Q2R 0.436332) by (rewrite lit_value; lra).
  assert (L3 : 0 < Q2R 1.0) by (rewrite lit_value; lra).
  assert (L0 : Q2R 0.0 = 0) by (rewrite lit_value; lra).
  split; [ split; [ reflexivity | split; [ reflexivity | ] ] | ].
  - intros j Hj.
    change (List.length (encode (seeded x y psi v cte epsi))) with 86%nat in Hj.
    do 86 (destruct j as [|j];
           [ do 3 eexists;
             split; [ reflexivity | split; [ reflexivity | split; [ reflexivity | ] ] ];
             to_reals; lra | ]).
    lia.
  - intros j Hj. change (6 * N + 2 * (N - 1))%nat with 86%nat in Hj.
    do 86 (destruct j as [|j];
           [ eexists; split; [ reflexivity | split; [ reflexivity | ] ];
             to_reals; lra | ]).
    lia.
Qed.

End RealProblem.

Section Coasting.

Local Open Scope R_scope.

Lemma coasting_blocks (x0 v : R) (t : nat) :
  (t < N)%nat ->
  var (encode (coasting x0 v)) (x_start + t) = x0 + v * (INR t * dt) /\
  var (encode (coasting x0 v)) (y_start + t) = 0 /\
  var (encode (coasting x0 v)) (psi_start + t) = 0 /\
  var (encode (coasting x0 v)) (v_start + t) = v /\
  var (encode (coasting x0 v)) (cte_start + t) = 0 /\
  var (encode (coasting x0 v)) (epsi_start + t) = 0.
Proof. intros Ht. by_cases t Ht. Qed.

Lemma coasting_actuations (x0 v : R) (t : nat) :
  (t < N - 1)%nat ->
  var (encode (coasting x0 v)) (delta_start + t) = 0 /\
  var (encode (coasting x0 v)) (a_start + t) = 0.
Proof. intros Ht. by_cases t Ht. Qed.

(** The builder on the coasting trajectory, for the straight path
    [f = 0] and the targets [(0, 0, v)]. *)
Lemma coasting_run (x0 v : R) (fg : list R) :
  List.length fg = (1 + 6 * N)%nat ->
  exists fg',
    FG_eval_call (mkFG_eval [0; 0; 0; 0] 0 0 v) fg (encode (coasting x0 v)) = Ok fg' /\
    List.length fg' = (1 + 6 * N)%nat /\
    nth_error fg' 0 = Some 0 /\
    (nth_error fg' (1 + x_start) = Some x0 /\
     nth_error fg' (1 + y_start) = Some 0 /\
     nth_error fg' (1 + psi_start) = Some 0 /\
     nth_error fg' (1 + v_start) = Some v /\
     nth_error fg' (1 + cte_start) = Some 0 /\
     nth_error fg' (1 + epsi_start) = Some 0) /\
    forall t, (t < N - 1)%nat ->
      nth_error fg' (2 + x_start + t) = Some 0 /\
      nth_error fg' (2 + y_start + t) = Some 0 /\
      nth_error fg' (2 + psi_start + t) = Some 0 /\
      nth_error fg' (2 + v_start + t) = Some 0 /\
      nth_error fg' (2 + cte_start + t) = Some 0 /\
      nth_error fg' (2 + epsi_start + t) = Some 0.
Proof.
  intros Hfg.
  destruct (FG_eval_call_run (self := mkFG_eval [0; 0; 0; 0] 0 0 v)
              (fg := fg) (vars := encode (coasting x0 v)))
    as (fg' & Hrun & Hlen & Hcost & (I1 & I2 & I3 & I4 & I5 & I6) & Hres).
  { split; [ exact Hfg | split; [ reflexivity | simpl; lia ] ]. }
  exists fg'. split; [ exact Hrun | ]. split; [ exact Hlen | ].
  split; [ | split ].
  - rewrite Hcost, accumulated_cost_is_spec_objective. f_equal.
    apply spec_objective_zero_iff. cbn [ref_cte ref_epsi ref_v].
    split; intros t Ht.
    + destruct (coasting_blocks x0 v Ht) as (_ & _ & _ & Bv & Bcte & Bepsi).
      rewrite var_real in Bv, Bcte, Bepsi. now repeat split.
    + destruct (coasting_actuations x0 v Ht) as (Bd & Ba).
      rewrite var_real in Bd, Ba. now split.
  - split; [ | repeat split; assumption ].
    rewrite I1. f_equal.
    change (var (encode (coasting x0 v)) x_start) with (x0 + v * (INR 0 * dt)).
    change (INR 0) with 0. ring.
  - intros t Ht.
    assert (Ht0 : (t < N)%nat) by (unfold N in *; lia).
    assert (Ht1 : (t + 1 < N)%nat) by (unfold N in *; simpl in Ht; lia).
    destruct (Hres t Ht) as (Rx & Ry & Rpsi & Rv & Rcte & Repsi). clear Hres.
    cbv zeta in Rx, Ry, Rpsi, Rv, Rcte, Repsi.
    destruct (coasting_blocks x0 v Ht0) as (Bx & By & Bpsi & Bv & Bcte & Bepsi).
    destruct (coasting_blocks x0 v Ht1) as (Bx1 & By1 & Bpsi1 & Bv1 & Bcte1 & Bepsi1).
    destruct (coasting_actuations x0 v Ht) as (Bd & Ba).
    rewrite Nat.add_assoc in Bx1, By1, Bpsi1, Bv1, Bcte1, Bepsi1.
    rewrite Rx, Ry, Rpsi, Rv, Rcte, Repsi.
    rewrite Bx, By, Bpsi, Bv, Bepsi, Bx1, By1, Bpsi1, Bv1, Bcte1, Bepsi1, Bd, Ba.
    cbn [coeffs].
    change (var [0; 0; 0; 0] 0) with 0. change (var [0; 0; 0; 0] 1) with 0.
    change (var [0; 0; 0; 0] 2) with 0. change (var [0; 0; 0; 0] 3) with 0.
    to_reals. rewrite !lit_value, plus_INR, cos_0, sin_0, Lf_value, dt_value.
    replace (0 + 2 / 1 * 0 * (x0 + v * (INR t * 0.1))
             + 3 / 1 * 0 * (x0 + v * (INR t * 0.1)) ^ 2) with 0 by field.
    rewrite atan_0. change (INR 1) with 1.
    repeat split; f_equal; field; lra.
Qed.

(** The straight path, on track at the target speed: for the path
    [f = 0], the state [(x0, 0, 0, v, 0, 0)] and the targets [(0, 0, v)],
    driving straight on at constant speed is a feasible point of the
    problem that [Solve] poses, with every constraint entry between its
    bounds and every variable within its bounds; its first actuation is
    [(0, 0)]; and its objective is 0, the least value of the objective:
    on every other trajectory vector the builder of this problem writes
    an objective of at least 0. *)
Theorem coasting_is_feasible_and_optimal (self : @MPC R) (x0 v : R) (fg : list R) :
  List.length fg = (1 + 6 * N)%nat ->
  -1e18 <= x0 <= 1e18 ->
  -1e18 <= v <= 1e18 ->
  exists p fg',
    Solve_problem (Init self 0 0 v) [x0; 0; 0; v; 0; 0] [0; 0; 0; 0] = Ok p /\
    FG_eval_call (fg_eval p) fg (encode (coasting x0 v)) = Ok fg' /\
    nth_error fg' 0 = Some 0 /\
    within (tl fg') (gl p) (gu p) /\
    within (encode (coasting x0 v)) (xl p) (xu p) /\
    nth_error (encode (coasting x0 v)) delta_start = Some 0 /\
    nth_error (encode (coasting x0 v)) a_start = Some 0 /\
    forall fg2 vars2,
      List.length fg2 = (1 + 6 * N)%nat ->
      List.length vars2 = (6 * N + 2 * (N - 1))%nat ->
      exists fg2' c,
        FG_eval_call (fg_eval p) fg2 vars2 = Ok fg2' /\
        nth_error fg2' 0 = Some c /\ 0 <= c.
Proof.
  intros Hfg Hx Hv.
  rewrite Solve_problem_run.
  destruct (@coasting_run x0 v fg Hfg)
    as (fg' & Hrun & Hlen & Hcost & (I1 & I2 & I3 & I4 & I5 & I6) & Hres).
  eexists. exists fg'. cbn [fg_eval gl gu xl xu ref_cte_ ref_epsi_ ref_v_ Init].
  split; [ reflexivity | ]. split; [ exact Hrun | ]. split; [ exact Hcost | ].
  assert (L0 : Q2R 0 = 0) by exact lit_zero.
  assert (L1 : Q2R 1.0e19 = 1e19).
  { change (Q2R 1.0e19) with (Q2R (Qmake 100000000000000000000 10)).
    rewrite lit_value. lra. }
  assert (L2 : 0 < Q2R 0.436332) by (rewrite lit_value; lra).
  assert (L3 : 0 < Q2R 1.0) by (rewrite lit_value; lra).
  assert (Ldt : @dt R _ = 0.1) by exact dt_value.
  split; [ | split; [ | split; [ reflexivity | split; [ reflexivity | ] ] ] ].
  3:{ intros fg2 vars2 Hfg2 Hvars2.
      destruct (FG_eval_call_run
                  (self := mkFG_eval [0; 0; 0; 0] 0 0 v) (fg := fg2) (vars := vars2))
        as (fg2' & Hrun2 & _ & Hcost2 & _);
        [ split; [ exact Hfg2 | split; [ exact Hvars2 | simpl; lia ] ] | ].
      rewrite accumulated_cost_is_spec_objective in Hcost2.
      exists fg2'. eexists. split; [ exact Hrun2 | ]. split; [ exact Hcost2 | ].
      apply spec_objective_zero_iff. }
  - assert (Htl : forall j, nth_error (tl fg') j = nth_error fg' (S j))
      by (intros j; destruct fg'; [ now destruct j | reflexivity ]).
    assert (Hl : List.length (tl fg') = 66%nat)
      by (rewrite length_tl, Hlen; reflexivity).
    split; [ rewrite Hl; reflexivity | split; [ rewrite Hl; reflexivity | ] ].
    rewrite Hl. intros j Hj.
    pose proof (Hres 0%nat ltac:(unfold N; simpl; lia)) as (X0 & Y0 & P0 & V0 & C0 & E0).
    pose proof (Hres 1%nat ltac:(unfold N; simpl; lia)) as (X1 & Y1 & P1 & V1 & C1 & E1).
    pose proof (Hres 2%nat ltac:(unfold N; simpl; lia)) as (X2 & Y2 & P2 & V2 & C2 & E2).
    pose proof (Hres 3%nat ltac:(unfold N; simpl; lia)) as (X3 & Y3 & P3 & V3 & C3 & E3).
    pose proof (Hres 4%nat ltac:(unfold N; simpl; lia)) as (X4 & Y4 & P4 & V4 & C4 & E4).
    pose proof (Hres 5%nat ltac:(unfold N; simpl; lia)) as (X5 & Y5 & P5 & V5 & C5 & E5).
    pose proof (Hres 6%nat ltac:(unfold N; simpl; lia)) as (X6 & Y6 & P6 & V6 & C6 & E6).
    pose proof (Hres 7%nat ltac:(unfold N; simpl; lia)) as (X7 & Y7 & P7 & V7 & C7 & E7).
    pose proof (Hres 8%nat ltac:(unfold N; simpl; lia)) as (X8 & Y8 & P8 & V8 & C8 & E8).
    pose proof (Hres 9%nat ltac:(unfold N; simpl; lia)) as (X9 & Y9 & P9 & V9 & C9 & E9).
    clear Hres Hrun Hcost.
    do 66 (destruct j as [|j];
           [ do 3 eexists;
             split; [ reflexivity | split; [ reflexivity | split;
               [ rewrite Htl;
                 match goal with H : nth_error fg' _ = Some _ |- _ => exact H end
               | cbn [lit Scalar_R]; lra ] ] ] | ]).
    lia.
  - split; [ reflexivity | split; [ reflexivity | ] ].
    intros j Hj. change (List.length (encode (coasting x0 v))) with 86%nat in Hj.
    do 86 (destruct j as [|j];
           [ do 3 eexists;
             split; [ reflexivity | split; [ reflexivity | split; [ reflexivity | ] ] ];
             to_reals; rewrite ?Ldt; cbn [INR]; nra | ]).
    lia.
Qed.

End Coasting.

(** ** The further theorems at concrete inputs *)

Section FurtherInputs.

Local Open Scope scalar_scope.

(** At the zero vectors, one with and one without later entries. *)
Lemma FG_eval_call_overwrites_fg_witness :
  (List.length fg0 = (1 + 6 * N)%nat) /\
  (List.length fg0 = (1 + 6 * N)%nat) /\
  (6 * N + 2 * (N - 1) <= List.length vars0) /\
  (4 <= List.length (coeffs fge0)) /\
  (exists out,
    List.length out = (1 + 6 * N)%nat /\
    FG_eval_call fge0 (fg0 ++ []) vars0 = Ok (out ++ []) /\
    FG_eval_call fge0 (fg0 ++ state1) vars0 = Ok (out ++ state1)).
Proof.
  assert (H1 : List.length fg0 = (1 + 6 * N)%nat)
    by (reflexivity).
  assert (H2 : List.length fg0 = (1 + 6 * N)%nat)
    by (reflexivity).
  assert (H3 : 6 * N + 2 * (N - 1) <= List.length vars0)
    by (apply Nat.eq_le_incl; reflexivity).
  assert (H4 : 4 <= List.length (coeffs fge0))
    by (simpl; lia).
  split; [ exact H1 | ].
  split; [ exact H2 | ].
  split; [ exact H3 | ].
  split; [ exact H4 | ].
  apply FG_eval_call_overwrites_fg; assumption.
Defined.

(** At the zero vectors, followed or not by further entries. *)
Lemma FG_eval_call_reads_prefixes_witness :
  (1 + 6 * N <= List.length fg0) /\
  (6 * N + 2 * (N - 1) <= List.length vars0) /\
  (4 <= List.length coeffs0) /\
  (firstn (6 * N + 2 * (N - 1)) (vars0 ++ state1) = firstn (6 * N + 2 * (N - 1)) vars0) /\
  (firstn 4 (coeffs0 ++ state1) = firstn 4 coeffs0) /\
  (FG_eval_call (mkFG_eval (coeffs0 ++ state1) (ref_cte fge0) (ref_epsi fge0) (ref_v fge0)) fg0 (vars0 ++ state1) =
  FG_eval_call (mkFG_eval coeffs0 (ref_cte fge0) (ref_epsi fge0) (ref_v fge0)) fg0 vars0).
Proof.
  assert (H1 : 1 + 6 * N <= List.length fg0)
    by (apply Nat.eq_le_incl; reflexivity).
  assert (H2 : 6 * N + 2 * (N - 1) <= List.length vars0)
    by (apply Nat.eq_le_incl; reflexivity).
  assert (H3 : 4 <= List.length coeffs0)
    by (simpl; lia).
  assert (H4 : firstn (6 * N + 2 * (N - 1)) (vars0 ++ state1) = firstn (6 * N + 2 * (N - 1)) vars0)
    by (reflexivity).
  assert (H5 : firstn 4 (coeffs0 ++ state1) = firstn 4 coeffs0)
    by (reflexivity).
  split; [ exact H1 | ].
  split; [ exact H2 | ].
  split; [ exact H3 | ].
  split; [ exact H4 | ].
  split; [ exact H5 | ].
  apply FG_eval_call_reads_prefixes; assumption.
Defined.


(** At a state, the same state followed by further components, and two
    paths. *)
Lemma Solve_problem_depends_on_witness :
  (6 <= List.length state0) /\
  (6 <= List.length (state0 ++ state1)) /\
  (exists p p',
    Solve_problem mpc0 state0 coeffs0 = Ok p /\
    Solve_problem (Init mpc0 (ref_v fge0) (ref_v fge0) (ref_v fge0)) (state0 ++ state1) coeffs_parabola = Ok p' /\
    options p' = options p /\ xl p' = xl p /\ xu p' = xu p /\
    (firstn 6 (state0 ++ state1) = firstn 6 state0 ->
       xi p' = xi p /\ gl p' = gl p /\ gu p' = gu p) /\
    fg_eval p = mkFG_eval coeffs0 (ref_cte_ mpc0) (ref_epsi_ mpc0) (ref_v_ mpc0)).
Proof.
  assert (H1 : 6 <= List.length state0)
    by (simpl; lia).
  assert (H2 : 6 <= List.length (state0 ++ state1))
    by (simpl; lia).
  split; [ exact H1 | ].
  split; [ exact H2 | ].
  apply Solve_problem_depends_on; assumption.
Defined.

(** At the zero state. *)
Lemma Init_sets_builder_targets_witness :
  (6 <= List.length state0) /\
  (exists p,
    Solve_problem (Init (Init mpc0 (dt_ mpc0) (dt_ mpc0) (dt_ mpc0)) (ref_cte_ mpc0) (ref_epsi_ mpc0) (dt_ mpc0)) state0 coeffs0 = Ok p /\
    fg_eval p = mkFG_eval coeffs0 (ref_cte_ mpc0) (ref_epsi_ mpc0) (dt_ mpc0) /\
    N_ (Init mpc0 (ref_cte_ mpc0) (ref_epsi_ mpc0) (dt_ mpc0)) = N_ mpc0 /\
    dt_ (Init mpc0 (ref_cte_ mpc0) (ref_epsi_ mpc0) (dt_ mpc0)) = dt_ mpc0 /\
    Init (Init mpc0 (dt_ mpc0) (dt_ mpc0) (dt_ mpc0)) (ref_cte_ mpc0) (ref_epsi_ mpc0) (dt_ mpc0) = Init mpc0 (ref_cte_ mpc0) (ref_epsi_ mpc0) (dt_ mpc0)).
Proof.
  assert (H1 : 6 <= List.length state0)
    by (simpl; lia).
  split; [ exact H1 | ].
  apply Init_sets_builder_targets; assumption.
Defined.

(** At the zero path and the parabola, which differ in the quadratic
    coefficient. *)
Lemma coefficients_reach_cte_and_epsi_only_witness :
  (List.length fg0 = (1 + 6 * N)%nat) /\
  (List.length vars0 = (6 * N + 2 * (N - 1))%nat) /\
  (4 <= List.length coeffs0) /\
  (4 <= List.length coeffs_parabola) /\
  (exists out out',
    FG_eval_call (mkFG_eval coeffs0 (ref_cte fge0) (ref_epsi fge0) (ref_v fge0)) fg0 vars0 = Ok out /\
    FG_eval_call (mkFG_eval coeffs_parabola (ref_cte fge0) (ref_epsi fge0) (ref_v fge0)) fg0 vars0 = Ok out' /\
    nth_error out' 0 = nth_error out 0 /\
    (nth_error out' (1 + x_start) = nth_error out (1 + x_start) /\
     nth_error out' (1 + y_start) = nth_error out (1 + y_start) /\
     nth_error out' (1 + psi_start) = nth_error out (1 + psi_start) /\
     nth_error out' (1 + v_start) = nth_error out (1 + v_start) /\
     nth_error out' (1 + cte_start) = nth_error out (1 + cte_start) /\
     nth_error out' (1 + epsi_start) = nth_error out (1 + epsi_start)) /\
    (forall t, (t < N - 1)%nat ->
       nth_error out' (2 + x_start + t) = nth_error out (2 + x_start + t) /\
       nth_error out' (2 + y_start + t) = nth_error out (2 + y_start + t) /\
       nth_error out' (2 + psi_start + t) = nth_error out (2 + psi_start + t) /\
       nth_error out' (2 + v_start + t) = nth_error out (2 + v_start + t)) /\
    (nth_error coeffs_parabola 1 = nth_error coeffs0 1 ->
     nth_error coeffs_parabola 3 = nth_error coeffs0 3 ->
     forall t, (t < N - 1)%nat ->
       nth_error out' (2 + epsi_start + t) = nth_error out (2 + epsi_start + t))).
Proof.
  assert (H1 : List.length fg0 = (1 + 6 * N)%nat)
    by (reflexivity).
  assert (H2 : List.length vars0 = (6 * N + 2 * (N - 1))%nat)
    by (reflexivity).
  assert (H3 : 4 <= List.length coeffs0)
    by (simpl; lia).
  assert (H4 : 4 <= List.length coeffs_parabola)
    by (simpl; lia).
  split; [ exact H1 | ].
  split; [ exact H2 | ].
  split; [ exact H3 | ].
  split; [ exact H4 | ].
  apply coefficients_reach_cte_and_epsi_only; assumption.
Defined.

(** At a state with [x = 1]. *)
Lemma initial_point_meets_initial_constraints_witness :
  (6 <= List.length state1) /\
  (4 <= List.length coeffs0) /\
  (List.length fg0 = (1 + 6 * N)%nat) /\
  (exists p vars fg',
    Solve_problem mpc0 state1 coeffs0 = Ok p /\
    xi p = map Some vars /\
    FG_eval_call (fg_eval p) fg0 vars = Ok fg' /\
    Forall (fun k => exists g,
              nth_error fg' (1 + k) = Some g /\
              nth_error (gl p) k = Some (Some g) /\
              nth_error (gu p) k = Some (Some g))
           [x_start; y_start; psi_start; v_start; cte_start; epsi_start]).
Proof.
  assert (H1 : 6 <= List.length state1)
    by (simpl; lia).
  assert (H2 : 4 <= List.length coeffs0)
    by (simpl; lia).
  assert (H3 : List.length fg0 = (1 + 6 * N)%nat)
    by (reflexivity).
  split; [ exact H1 | ].
  split; [ exact H2 | ].
  split; [ exact H3 | ].
  apply initial_point_meets_initial_constraints; assumption.
Defined.

End FurtherInputs.

Section FurtherRealInputs.

Local Open Scope R_scope.

(** At the zero trajectory. *)
Lemma objective_vanishes_iff_witness :
  (solver_sized fge0 fg0 vars0) /\
  (exists fg' c,
    FG_eval_call fge0 fg0 vars0 = Ok fg' /\
    nth_error fg' 0 = Some c /\
    0 <= c /\
    (c = 0 <->
     (forall t, (t < N)%nat ->
        nth (cte_start + t) vars0 0 = ref_cte fge0 /\
        nth (epsi_start + t) vars0 0 = ref_epsi fge0 /\
        nth (v_start + t) vars0 0 = ref_v fge0) /\
     (forall t, (t < N - 1)%nat ->
        nth (delta_start + t) vars0 0 = 0 /\ nth (a_start + t) vars0 0 = 0))).
Proof.
  assert (H1 : solver_sized fge0 fg0 vars0)
    by (split; [ reflexivity | split; [ reflexivity | simpl; lia ] ]).
  split; [ exact H1 | ].
  apply objective_vanishes_iff; assumption.
Defined.

(** At the first timestep of the zero trajectory. *)
Lemma cte_residual_uses_cubic_witness :
  (solver_sized fge0 fg0 vars0) /\
  ((0%nat < N - 1)%nat) /\
  (exists fg',
    FG_eval_call fge0 fg0 vars0 = Ok fg' /\
    nth_error fg' (2 + cte_start + 0%nat) =
      Some (nth (cte_start + 0%nat + 1) vars0 0
            - ((cubic (coeffs fge0) (nth (x_start + 0%nat) vars0 0)
                - nth (y_start + 0%nat) vars0 0)
               + nth (v_start + 0%nat) vars0 0 * sin (nth (epsi_start + 0%nat) vars0 0) * 0.1))).
Proof.
  assert (H1 : solver_sized fge0 fg0 vars0)
    by (split; [ reflexivity | split; [ reflexivity | simpl; lia ] ]).
  assert (H2 : (0%nat < N - 1)%nat)
    by (unfold N; simpl; lia).
  split; [ exact H1 | ].
  split; [ exact H2 | ].
  apply cte_residual_uses_cubic; assumption.
Defined.

(** At a state with [x = 1]. *)
Lemma initial_point_within_variable_bounds_witness :
  ((6 <= List.length state1)%nat) /\
  ((forall k, (k < 6)%nat -> -1e19 <= nth k state1 0 <= 1e19)) /\
  (exists p vars,
    Solve_problem mpc0 state1 coeffs0 = Ok p /\
    xi p = map Some vars /\
    within vars (xl p) (xu p) /\
    forall j, (j < 6 * N + 2 * (N - 1))%nat ->
      exists u, nth_error (xl p) j = Some (Some (- u)) /\
                nth_error (xu p) j = Some (Some u) /\ 0 < u).
Proof.
  assert (H1 : (6 <= List.length state1)%nat)
    by (simpl; lia).
  assert (H2 : (forall k, (k < 6)%nat -> -1e19 <= nth k state1 0 <= 1e19))
    by (intros k Hk; do 6 (destruct k as [|k]; [ simpl; lra | ]); lia).
  split; [ exact H1 | ].
  split; [ exact H2 | ].
  apply initial_point_within_variable_bounds; assumption.
Defined.

(** From the origin at speed 10. *)
Lemma coasting_is_feasible_and_optimal_witness :
  (List.length fg0 = (1 + 6 * N)%nat) /\
  (-1e18 <= 0 <= 1e18) /\
  (-1e18 <= 10 <= 1e18) /\
  (exists p fg',
    Solve_problem (Init mpc0 0 0 10) [0; 0; 0; 10; 0; 0] [0; 0; 0; 0] = Ok p /\
    FG_eval_call (fg_eval p) fg0 (encode (coasting 0 10)) = Ok fg' /\
    nth_error fg' 0 = Some 0 /\
    within (tl fg') (gl p) (gu p) /\
    within (encode (coasting 0 10)) (xl p) (xu p) /\
    nth_error (encode (coasting 0 10)) delta_start = Some 0 /\
    nth_error (encode (coasting 0 10)) a_start = Some 0 /\
    forall fg2 vars2,
      List.length fg2 = (1 + 6 * N)%nat ->
      List.length vars2 = (6 * N + 2 * (N - 1))%nat ->
      exists fg2' c,
        FG_eval_call (fg_eval p) fg2 vars2 = Ok fg2' /\
        nth_error fg2' 0 = Some c /\ 0 <= c).
Proof.
  assert (H1 : List.length fg0 = (1 + 6 * N)%nat)
    by (reflexivity).
  assert (H2 : -1e18 <= 0 <= 1e18)
    by (lra).
  assert (H3 : -1e18 <= 10 <= 1e18)
    by (lra).
  split; [ exact H1 | ].
  split; [ exact H2 | ].
  split; [ exact H3 | ].
  apply coasting_is_feasible_and_optimal; assumption.
Defined.

End FurtherRealInputs.
